(** * Aporte Capital backend: temporary links, CNPJ lookup, estimated score

    A shallow embedding of the three helpers of [server.js] that carry
    policy: the registry of temporary download links ([tempLinks] and
    its functions), the CNPJ lookup with provider fallback
    ([consultarCNPJ], [normalizarDadosCNPJ]) and the heuristic score
    ([calcularScoreEstimado], [gerarRecomendacao]).  Around them: the
    sweep of the registry and the download routes, as a transition
    system over the registry and the disk; the dashboard's lookup
    endpoint; the validation of the form; the naming and filtering of
    uploads with the error handler; the WhatsApp link; and the input
    masks of the page ([api/send-email.js]).

    Conventions of the embedding.
    - JavaScript strings are [string] (the bytes of their UTF-8
      encoding); the empty string is the falsy one.
    - Instants ([Date] values) are [Z] milliseconds since the epoch, an
      invalid [Date] is [None]; an ISO timestamp is the instant it
      renders.
    - Numbers that only count (downloads, points) are [Z].  A Number
      that can have a fraction is the rational value of its double,
      [None] for [NaN].
    - The clock and the random source are read by the caller and passed
      in; the network is a function from the requested URL to what the
      request produced, and the URLs requested are returned as a log.
    - Objects built by the code are records; the JSON a provider sends
      is read at the properties, and at the types, the code uses. *)

From Stdlib Require Import ZArith QArith Qround String Ascii List Bool Lia Lqa.
From stdpp Require Import gmap strings pretty.

Import ListNotations.
Local Open Scope string_scope.
Local Open Scope Z_scope.

(** ** JavaScript string and number helpers *)

Module JS.

(** [\d] of a regular expression without the unicode flag: [0-9]. *)
Definition isDigit (c : ascii) : bool :=
  let n := N_of_ascii c in ((48 <=? n) && (n <=? 57))%N.

(** [s.replace(/[^...]/g, '')]: keeps the characters of the class. *)
Fixpoint keep (p : ascii -> bool) (s : string) : string :=
  match s with
  | EmptyString => EmptyString
  | String c r => if p c then String c (keep p r) else keep p r
  end.

(** [s.replace(c, d)] with a string pattern: the first occurrence only. *)
Fixpoint replaceFirst (c d : ascii) (s : string) : string :=
  match s with
  | EmptyString => EmptyString
  | String a r => if Ascii.eqb a c then String d r else String a (replaceFirst c d r)
  end.

(** [s.includes(w)]. *)
Fixpoint includes (s w : string) : bool :=
  String.prefix w s ||
  match s with
  | EmptyString => false
  | String _ r => includes r w
  end.

(** [s.toLowerCase()] on the letters of Basic Latin and of the Latin-1
    Supplement (in UTF-8 the latter are the byte 0xC3 followed by
    0x80..0x9E, 0x97 being the multiplication sign); every other byte
    is left as it is. *)
Definition lowerAscii (c : ascii) : ascii :=
  let n := N_of_ascii c in
  if ((65 <=? n) && (n <=? 90))%N then ascii_of_N (n + 32) else c.

Definition lowerLatin1 (c : ascii) : ascii :=
  let n := N_of_ascii c in
  if ((128 <=? n) && (n <=? 158) && negb (n =? 151))%N then ascii_of_N (n + 32) else c.

Fixpoint lower (afterC3 : bool) (s : string) : string :=
  match s with
  | EmptyString => EmptyString
  | String c r =>
      if afterC3 then String (lowerLatin1 c) (lower false r)
      else String (lowerAscii c) (lower (N_of_ascii c =? 195)%N r)
  end.

Definition toLowerCase (s : string) : string := lower false s.

(** The longest prefix of decimal digits, and what follows it. *)
Fixpoint spanDigits (s : string) : string * string :=
  match s with
  | String c r =>
      if isDigit c then let '(d, t) := spanDigits r in (String c d, t)
      else (EmptyString, s)
  | EmptyString => (EmptyString, EmptyString)
  end.

Fixpoint digitsValue (acc : Z) (s : string) : Z :=
  match s with
  | EmptyString => acc
  | String c r => digitsValue (10 * acc + (Z.of_N (N_of_ascii c) - 48)) r
  end.

(** The double nearest to a rational, ties to even, as the rational it
    is: what a Number holds when the exact result is [x].  With
    [2^e <= |x| < 2^(e+1)] the doubles around [x] are the multiples of
    [2^q], [q = max (e - 52) (-1074)].  Beyond the largest double the
    value stays finite instead of becoming [Infinity]; the comparisons
    with finite constants, the one use made of it, do not tell the two
    apart. *)
Definition toDouble (x : Q) : Q :=
  let n := Z.abs (Qnum x) in
  let d := Zpos (Qden x) in
  if n =? 0 then 0%Q
  else
    let e0 := Z.log2 n - Z.log2 d in
    let e := if (if 0 <=? e0 then d * 2 ^ e0 <=? n else d <=? n * 2 ^ (- e0))
             then e0 else e0 - 1 in
    let q := Z.max (e - 52) (-1074) in
    let num := if 0 <=? q then n else n * 2 ^ (- q) in
    let den := if 0 <=? q then d * 2 ^ q else d in
    let m0 := num / den in
    let m := match 2 * (num mod den) ?= den with
             | Lt => m0
             | Gt => m0 + 1
             | Eq => if Z.even m0 then m0 else m0 + 1
             end in
    let m := if Qnum x <? 0 then - m else m in
    if 0 <=? q then (m * 2 ^ q) # 1 else m # Z.to_pos (2 ^ (- q)).

(** [parseFloat(s)] for an unsigned decimal literal without exponent:
    the longest prefix [digits], [digits.], [digits.digits] or
    [.digits]; [None] ([NaN]) when the prefix has no digit.  Leading
    blanks, a sign, an exponent and [Infinity] are not read: the one
    caller removes every character but digits and commas first. *)
Definition parseFloat (s : string) : option Q :=
  let '(ip, r) := spanDigits s in
  let fp := match r with
            | String "." t => fst (spanDigits t)
            | _ => EmptyString
            end in
  if (String.length ip + String.length fp =? 0)%nat then None
  else Some (toDouble
               (digitsValue 0 (ip ++ fp) # Z.to_pos (10 ^ Z.of_nat (String.length fp)))).

(** Comparisons of numbers; every comparison with [NaN] is false. *)
Definition geq (x : option Q) (y : Z) : bool :=
  match x with Some q => Qle_bool (inject_Z y) q | None => false end.

Definition gt (x : option Q) (y : Z) : bool :=
  match x with Some q => negb (Qle_bool q (inject_Z y)) | None => false end.

(** [buf.toString('hex').toUpperCase()]. *)
Definition hexDigit (n : N) : ascii :=
  ascii_of_N (if (n <? 10)%N then 48 + n else 55 + n).

Fixpoint toHexUpper (buf : list ascii) : string :=
  match buf with
  | [] => EmptyString
  | b :: r =>
      let n := N_of_ascii b in
      String (hexDigit (n / 16)) (String (hexDigit (n mod 16)) (toHexUpper r))
  end.

End JS.

(** ** Temporary download links *)

Module TempLinks.

(** An uploaded file as multer describes it. *)
Record FileRef := {
  originalname : string;
  size : Z;
  path : string
}.

Record TempLink := {
  files : list FileRef;
  createdAt : Z;
  downloads : Z;
  maxDownloads : Z;
  expiresAt : Z;
  active : bool
}.

(** [const tempLinks = new Map()]. *)
Abbreviation Registry := (gmap string TempLink).

Definition setActive (b : bool) (l : TempLink) : TempLink :=
  {| files := files l; createdAt := createdAt l; downloads := downloads l;
     maxDownloads := maxDownloads l; expiresAt := expiresAt l; active := b |}.

Definition setDownloads (n : Z) (l : TempLink) : TempLink :=
  {| files := files l; createdAt := createdAt l; downloads := n;
     maxDownloads := maxDownloads l; expiresAt := expiresAt l; active := active l |}.

(** [generateTempLink(files, maxDownloads = 5, expirationHours = 48)].
    [rnd] is what [crypto.randomBytes(8)] returned and [now] the clock,
    one reading for both [expiresAt] and [createdAt]; an argument left
    out or [undefined] is [None]. *)
Definition generateTempLink (rnd : list ascii) (now : Z)
    (files : option (list FileRef)) (maxDownloads expirationHours : option Z)
    (tempLinks : Registry) : string * Registry :=
  let maxDownloads := default 5 maxDownloads in
  let expirationHours := default 48 expirationHours in
  let linkId := JS.toHexUpper rnd in
  let expiresAt := now + expirationHours * 60 * 60 * 1000 in
  (linkId,
   <[linkId := {| files := default [] files;
                  createdAt := now;
                  downloads := 0;
                  maxDownloads := maxDownloads;
                  expiresAt := expiresAt;
                  active := true |}]> tempLinks).

Inductive Validation :=
| Invalid (reason : string)
| Valid (link : TempLink).

(** [validateTempLink(linkId)]; the two deactivations write through to
    the record held by the map. *)
Definition validateTempLink (now : Z) (linkId : string) (tempLinks : Registry)
    : Validation * Registry :=
  match tempLinks !! linkId with
  | None => (Invalid "Link não encontrado", tempLinks)
  | Some link =>
      if negb (active link) then (Invalid "Link desativado", tempLinks)
      else if expiresAt link <? now then
        (Invalid "Link expirado", <[linkId := setActive false link]> tempLinks)
      else if maxDownloads link <=? downloads link then
        (Invalid "Limite de downloads atingido", <[linkId := setActive false link]> tempLinks)
      else (Valid link, tempLinks)
  end.

(** [incrementDownload(linkId)]. *)
Definition incrementDownload (linkId : string) (tempLinks : Registry) : Registry :=
  match tempLinks !! linkId with
  | Some link => <[linkId := setDownloads (downloads link + 1) link]> tempLinks
  | None => tempLinks
  end.

(** The calls a client of the registry can make, with what each reads
    from its environment. *)
Inductive Op :=
| Issue (rnd : list ascii) (now : Z) (files : option (list FileRef))
        (maxDownloads expirationHours : option Z)
| Validate (now : Z) (linkId : string)
| Consume (linkId : string).

Definition step (op : Op) (tempLinks : Registry) : Registry :=
  match op with
  | Issue rnd now fs m h => snd (generateTempLink rnd now fs m h tempLinks)
  | Validate now linkId => snd (validateTempLink now linkId tempLinks)
  | Consume linkId => incrementDownload linkId tempLinks
  end.

Definition run (ops : list Op) (tempLinks : Registry) : Registry :=
  fold_left (fun reg op => step op reg) ops tempLinks.

(** The download routes' discipline: [incrementDownload] is called
    only on the link that the call just before it validated, and
    links are issued with a budget that is not negative.  [last] is
    the link the previous call found valid, if that call was a
    validation. *)
Fixpoint guarded (last : option string) (tempLinks : Registry) (ops : list Op) : bool :=
  match ops with
  | [] => true
  | Issue rnd now fs m h :: r =>
      (0 <=? default 5 m) && guarded None (step (Issue rnd now fs m h) tempLinks) r
  | Validate now linkId :: r =>
      let '(v, reg) := validateTempLink now linkId tempLinks in
      guarded (match v with Valid _ => Some linkId | Invalid _ => None end) reg r
  | Consume linkId :: r =>
      bool_decide (last = Some linkId) && guarded None (incrementDownload linkId tempLinks) r
  end.

(** The budget invariant of the data model. *)
Definition within_budget (tempLinks : Registry) : Prop :=
  forall linkId link, tempLinks !! linkId = Some link -> downloads link <= maxDownloads link.

(** The contract of validation as the specification words it: the first
    of the four reasons that applies, in this order, is the one
    reported; expiry and exhaustion deactivate the stored record; the
    link is returned when none applies. *)
Inductive validates (now : Z) (tempLinks : Registry) (linkId : string)
    : Validation * Registry -> Prop :=
| validates_not_found :
    tempLinks !! linkId = None ->
    validates now tempLinks linkId (Invalid "Link não encontrado", tempLinks)
| validates_deactivated link :
    tempLinks !! linkId = Some link ->
    active link = false ->
    validates now tempLinks linkId (Invalid "Link desativado", tempLinks)
| validates_expired link :
    tempLinks !! linkId = Some link ->
    active link = true ->
    now > expiresAt link ->
    validates now tempLinks linkId
      (Invalid "Link expirado", <[linkId := setActive false link]> tempLinks)
| validates_exhausted link :
    tempLinks !! linkId = Some link ->
    active link = true ->
    now <= expiresAt link ->
    downloads link >= maxDownloads link ->
    validates now tempLinks linkId
      (Invalid "Limite de downloads atingido", <[linkId := setActive false link]> tempLinks)
| validates_valid link :
    tempLinks !! linkId = Some link ->
    active link = true ->
    now <= expiresAt link ->
    downloads link < maxDownloads link ->
    validates now tempLinks linkId (Valid link, tempLinks).

End TempLinks.


(** ** CNPJ lookup with provider fallback *)

Module Consulta.

(** A JSON object read at its scalar properties, each by its text.  A
    property the code reads through [x || ''] has the empty text when
    it is absent or falsy; one it puts into a template literal has the
    text [String(x)]. *)
Abbreviation JsonObject := (gmap string string).

(** [o.k || '']. *)
Definition prop (o : JsonObject) (k : string) : string := default "" (o !! k).

(** [${o.k}] inside a template literal. *)
Definition interp (o : JsonObject) (k : string) : string := default "undefined" (o !! k).

(** [a || b] on strings. *)
Definition orElse (a b : string) : string :=
  match a with
  | EmptyString => b
  | _ => a
  end.

Infix "|||" := orElse (at level 50, left associativity).

(** The parsed body of a provider, at the properties the normaliser
    reads: the scalar ones of the top-level object in [props], the
    nested objects and arrays beside them.  An array-valued property is
    [Some] of its elements and [None] when absent or not an array;
    [atividade_principal] is empty when absent.  A truthy body that is
    not an object has none of these properties. *)
Record ApiData := {
  props : JsonObject;
  company : option JsonObject;
  cnae_fiscal_principal : option JsonObject;
  cnaes_secundarios : option (list JsonObject);
  qsa : option (list JsonObject);
  atividade_principal : list JsonObject;
  atividades_secundarias : option (list JsonObject)
}.

Record Endereco := {
  logradouro : string;
  numero : string;
  complemento : string;
  bairro : string;
  municipio : string;
  uf : string;
  cep : string
}.

Record Socio := {
  nome : string;
  qualificacao : string;
  dataEntrada : string
}.

(** The object both [normalizarDadosCNPJ] and [consultarCNPJ] return.
    A property the source leaves out of the object is [None] (or the
    empty string for the text ones, which reads the same to every
    consumer: they only test them for truthiness). *)
Record DadosCNPJ := {
  success : bool;
  error : option string;
  cnpj : string;
  razaoSocial : string;
  nomeFantasia : string;
  situacao : string;
  dataSituacao : string;
  motivoSituacao : string;
  dataAbertura : string;
  naturezaJuridica : string;
  porte : string;
  regimeTributario : string;
  capitalSocial : string;
  endereco : option Endereco;
  telefone : string;
  email : string;
  atividadePrincipal : string;
  atividadesSecundarias : list string;
  socios : list Socio;
  dataUltimaAtualizacao : string;
  source : option string;
  official : option bool;
  consultedAt : option Z
}.

(** [{ success: false, error }], with [source] and [consultedAt] when
    the caller adds them. *)
Definition falha (error : string) (source : option string) (consultedAt : option Z)
    : DadosCNPJ :=
  {| success := false; error := Some error;
     cnpj := ""; razaoSocial := ""; nomeFantasia := ""; situacao := "";
     dataSituacao := ""; motivoSituacao := ""; dataAbertura := "";
     naturezaJuridica := ""; porte := ""; regimeTributario := "";
     capitalSocial := ""; endereco := None; telefone := ""; email := "";
     atividadePrincipal := ""; atividadesSecundarias := []; socios := [];
     dataUltimaAtualizacao := "";
     source := source; official := None; consultedAt := consultedAt |}.

Definition enderecoDe (data : ApiData) : Endereco :=
  {| logradouro := prop (props data) "logradouro";
     numero := prop (props data) "numero";
     complemento := prop (props data) "complemento";
     bairro := prop (props data) "bairro";
     municipio := prop (props data) "municipio";
     uf := prop (props data) "uf";
     cep := prop (props data) "cep" |}.

(** The field mapping of [normalizarDadosCNPJ]: the [normalized] object
    as it stands just before the check of the legal name. *)
Definition mapear (data : ApiData) (apiName : string) : DadosCNPJ :=
  let d := props data in
  if String.eqb apiName "BrasilAPI" then
    {| success := true; error := None;
       cnpj := prop d "cnpj";
       razaoSocial := prop d "razao_social"
                      ||| match company data with Some c => prop c "name" | None => "" end;
       nomeFantasia := prop d "nome_fantasia" ||| prop d "alias";
       situacao := prop d "descricao_situacao_cadastral" ||| prop d "status";
       dataSituacao := prop d "data_situacao_cadastral";
       motivoSituacao := prop d "descricao_motivo_situacao_cadastral";
       dataAbertura := prop d "data_inicio_atividade" ||| prop d "founded";
       naturezaJuridica := prop d "descricao_natureza_juridica";
       porte := prop d "descricao_porte" ||| prop d "size";
       regimeTributario := "";
       capitalSocial := prop d "capital_social";
       endereco := Some (enderecoDe data);
       telefone := prop d "ddd_telefone_1";
       email := prop d "email";
       atividadePrincipal :=
         match cnae_fiscal_principal data with
         | Some c => interp c "codigo" ++ " - " ++ interp c "descricao"
         | None => ""
         end;
       atividadesSecundarias :=
         match cnaes_secundarios data with
         | Some l => map (fun cnae => interp cnae "codigo" ++ " - " ++ interp cnae "descricao") l
         | None => []
         end;
       socios :=
         match qsa data with
         | Some l => map (fun socio => {| nome := prop socio "nome_socio";
                                          qualificacao := prop socio "qualificacao_socio";
                                          dataEntrada := prop socio "data_entrada_sociedade" |}) l
         | None => []
         end;
       dataUltimaAtualizacao := "";
       source := None; official := None; consultedAt := None |}
  else if String.eqb apiName "ReceitaWS" then
    {| success := true; error := None;
       cnpj := prop d "cnpj";
       razaoSocial := prop d "nome";
       nomeFantasia := prop d "fantasia";
       situacao := prop d "situacao";
       dataSituacao := "";
       motivoSituacao := "";
       dataAbertura := prop d "abertura";
       naturezaJuridica := prop d "natureza_juridica";
       porte := prop d "porte";
       regimeTributario := "";
       capitalSocial := prop d "capital_social";
       endereco := Some (enderecoDe data);
       telefone := prop d "telefone";
       email := prop d "email";
       atividadePrincipal :=
         match atividade_principal data with
         | principal :: _ => interp principal "code" ++ " - " ++ interp principal "text"
         | [] => ""
         end;
       atividadesSecundarias :=
         match atividades_secundarias data with
         | Some l => map (fun ativ => interp ativ "code" ++ " - " ++ interp ativ "text") l
         | None => []
         end;
       socios :=
         match qsa data with
         | Some l => map (fun socio => {| nome := prop socio "nome";
                                          qualificacao := prop socio "qual";
                                          dataEntrada := "" |}) l
         | None => []
         end;
       dataUltimaAtualizacao := "";
       source := None; official := None; consultedAt := None |}
  else
    {| success := true; error := None;
       cnpj := ""; razaoSocial := ""; nomeFantasia := ""; situacao := "";
       dataSituacao := ""; motivoSituacao := ""; dataAbertura := "";
       naturezaJuridica := ""; porte := ""; regimeTributario := "";
       capitalSocial := "";
       endereco := Some {| logradouro := ""; numero := ""; complemento := "";
                           bairro := ""; municipio := ""; uf := ""; cep := "" |};
       telefone := ""; email := "";
       atividadePrincipal := ""; atividadesSecundarias := []; socios := [];
       dataUltimaAtualizacao := "";
       source := None; official := None; consultedAt := None |}.

(** [normalizarDadosCNPJ(data, apiName)].  On a body of the shape
    [ApiData] nothing in the mapping raises, so the [catch] of the
    source is not reached. *)
Definition normalizarDadosCNPJ (data : ApiData) (apiName : string) : DadosCNPJ :=
  let normalized := mapear data apiName in
  match razaoSocial normalized with
  | EmptyString => falha "Dados incompletos retornados pela API" None None
  | _ => normalized
  end.

(** What one [fetch] produced. *)
Inductive Body :=
| NotJson
| Json (data : option ApiData).

Inductive Response :=
| Thrown (message : string)
| Http (status : Z) (body : Body).

(** [response.ok]. *)
Definition ok (status : Z) : bool := (200 <=? status) && (status <=? 299).

Record Api := {
  api_name : string;
  api_url : string;
  api_official : bool
}.

Definition apis (cnpjLimpo : string) : list Api :=
  [ {| api_name := "BrasilAPI";
       api_url := "https://brasilapi.com.br/api/cnpj/v1/" ++ cnpjLimpo;
       api_official := true |};
    {| api_name := "ReceitaWS";
       api_url := "https://www.receitaws.com.br/v1/cnpj/" ++ cnpjLimpo;
       api_official := false |};
    {| api_name := "CNPJ.ws";
       api_url := "https://cnpj.ws/cnpj/" ++ cnpjLimpo;
       api_official := false |} ].

(** [{ ...dadosNormalizados, source, official, consultedAt }]. *)
Definition anotar (d : DadosCNPJ) (api : Api) (now : Z) : DadosCNPJ :=
  {| success := success d; error := error d;
     cnpj := cnpj d; razaoSocial := razaoSocial d; nomeFantasia := nomeFantasia d;
     situacao := situacao d; dataSituacao := dataSituacao d;
     motivoSituacao := motivoSituacao d; dataAbertura := dataAbertura d;
     naturezaJuridica := naturezaJuridica d; porte := porte d;
     regimeTributario := regimeTributario d; capitalSocial := capitalSocial d;
     endereco := endereco d; telefone := telefone d; email := email d;
     atividadePrincipal := atividadePrincipal d;
     atividadesSecundarias := atividadesSecundarias d; socios := socios d;
     dataUltimaAtualizacao := dataUltimaAtualizacao d;
     source := Some (api_name api);
     official := Some (api_official api);
     consultedAt := Some now |}.

(** One turn of the loop body: [Some] of the value returned, or [None]
    when the loop goes on to the next provider ([continue], the end of
    the body, or the [catch]). *)
Definition tentar (response : Response) (api : Api) (now : Z) : option DadosCNPJ :=
  match response with
  | Thrown _ => None
  | Http status body =>
      if negb (ok status) then None
      else match body with
           | NotJson => None
           | Json None => None
           | Json (Some data) =>
               if String.eqb (prop (props data) "status") "ERROR" then None
               else
                 let dadosNormalizados := normalizarDadosCNPJ data (api_name api) in
                 if success dadosNormalizados then Some (anotar dadosNormalizados api now)
                 else None
           end
  end.

(** [for (const api of apis) { ... }] and the return after it, with the
    URLs requested, oldest first. *)
Fixpoint percorrer (fetch : string -> Response) (now : Z) (l : list Api)
    : DadosCNPJ * list string :=
  match l with
  | [] =>
      (falha "Não foi possível consultar o CNPJ no momento. Todas as APIs estão indisponíveis."
             (Some "todas_apis_falharam") (Some now), [])
  | api :: rest =>
      match tentar (fetch (api_url api)) api now with
      | Some dados => (dados, [api_url api])
      | None => let '(dados, log) := percorrer fetch now rest in (dados, api_url api :: log)
      end
  end.

(** [consultarCNPJ(cnpj)]. *)
Definition consultarCNPJ (fetch : string -> Response) (now : Z) (cnpj : string)
    : DadosCNPJ * list string :=
  let cnpjLimpo := JS.keep JS.isDigit cnpj in
  if negb (String.length cnpjLimpo =? 14)%nat then
    (falha "CNPJ deve ter 14 dígitos" (Some "validacao") None, [])
  else percorrer fetch now (apis cnpjLimpo).

(** Two networks for the examples.  In the first every provider answers
    with a BrasilAPI-shaped body for ACME LTDA; in the second the first
    provider is down and the second answers in its own shape. *)
Definition corpoBrasilAPI : ApiData :=
  {| props := {[ "razao_social" := "ACME LTDA";
                 "descricao_situacao_cadastral" := "ATIVA" ]};
     company := None; cnae_fiscal_principal := None;
     cnaes_secundarios := None; qsa := None;
     atividade_principal := []; atividades_secundarias := None |}.

Definition corpoReceitaWS : ApiData :=
  {| props := {[ "nome" := "ACME LTDA"; "situacao" := "ATIVA" ]};
     company := None; cnae_fiscal_principal := None;
     cnaes_secundarios := None; qsa := None;
     atividade_principal := []; atividades_secundarias := None |}.

Definition redeAcme (url : string) : Response := Http 200 (Json (Some corpoBrasilAPI)).

Definition redeExemplo (url : string) : Response :=
  if String.eqb url "https://www.receitaws.com.br/v1/cnpj/11222333000181" then
    Http 200 (Json (Some corpoReceitaWS))
  else Http 503 NotJson.

End Consulta.


(** ** Estimated score *)

Module Score.

Record Detalhes := {
  situacao : Z;
  tempo_atividade : Z;
  capital_social : Z;
  atividade_principal : Z;
  endereco : Z
}.

(** The object [calcularScoreEstimado] returns; [cor], [recomendacao]
    and [calculadoEm] are [None] where the object has no such property. *)
Record ScoreEstimado := {
  score : Z;
  classificacao : string;
  cor : option string;
  fatores : list string;
  detalhes : Detalhes;
  recomendacao : option string;
  calculadoEm : option Z
}.

(** The three locals the function accumulates into. *)
Record Calculo := {
  pontuacao : Z;
  c_fatores : list string;
  c_detalhes : Detalhes
}.

Definition inicio : Calculo :=
  {| pontuacao := 0; c_fatores := [];
     c_detalhes := {| situacao := 0; tempo_atividade := 0; capital_social := 0;
                      atividade_principal := 0; endereco := 0 |} |}.

(** [pontuacao += n]. *)
Definition somar (n : Z) (c : Calculo) : Calculo :=
  {| pontuacao := pontuacao c + n; c_fatores := c_fatores c; c_detalhes := c_detalhes c |}.

(** [fatores.push(msg)]. *)
Definition push (msg : string) (c : Calculo) : Calculo :=
  {| pontuacao := pontuacao c; c_fatores := c_fatores c ++ [msg]; c_detalhes := c_detalhes c |}.

Definition comDetalhes (f : Detalhes -> Detalhes) (c : Calculo) : Calculo :=
  {| pontuacao := pontuacao c; c_fatores := c_fatores c; c_detalhes := f (c_detalhes c) |}.

(** [detalhes.situacao = n] and its four siblings. *)
Definition setSituacao (n : Z) : Calculo -> Calculo :=
  comDetalhes (fun d => {| situacao := n; tempo_atividade := tempo_atividade d;
                           capital_social := capital_social d;
                           atividade_principal := atividade_principal d;
                           endereco := endereco d |}).

Definition setTempoAtividade (n : Z) : Calculo -> Calculo :=
  comDetalhes (fun d => {| situacao := situacao d; tempo_atividade := n;
                           capital_social := capital_social d;
                           atividade_principal := atividade_principal d;
                           endereco := endereco d |}).

Definition setCapitalSocial (n : Z) : Calculo -> Calculo :=
  comDetalhes (fun d => {| situacao := situacao d; tempo_atividade := tempo_atividade d;
                           capital_social := n;
                           atividade_principal := atividade_principal d;
                           endereco := endereco d |}).

Definition setAtividadePrincipal (n : Z) : Calculo -> Calculo :=
  comDetalhes (fun d => {| situacao := situacao d; tempo_atividade := tempo_atividade d;
                           capital_social := capital_social d;
                           atividade_principal := n;
                           endereco := endereco d |}).

Definition setEndereco (n : Z) : Calculo -> Calculo :=
  comDetalhes (fun d => {| situacao := situacao d; tempo_atividade := tempo_atividade d;
                           capital_social := capital_social d;
                           atividade_principal := atividade_principal d;
                           endereco := n |}).

(** Statements in sequence, left to right. *)
Notation "c |> f" := (f c) (at level 45, left associativity, only parsing).

Definition truthy (s : string) : bool :=
  match s with
  | EmptyString => false
  | _ => true
  end.

(** 1. Situação cadastral. *)
Definition pontuarSituacao (dadosCNPJ : Consulta.DadosCNPJ) (c : Calculo) : Calculo :=
  if truthy (Consulta.situacao dadosCNPJ) then
    let situacao := JS.toLowerCase (Consulta.situacao dadosCNPJ) in
    if JS.includes situacao "ativa" then
      c |> somar 30 |> setSituacao 30 |> push "✅ Situação cadastral ativa"
    else if JS.includes situacao "suspensa" then
      c |> somar 10 |> setSituacao 10 |> push "⚠️ Situação cadastral suspensa"
    else
      c |> push "❌ Situação cadastral irregular"
  else c.

(** [1000 * 60 * 60 * 24 * 365]. *)
Definition msPorAno : positive := 31536000000.

(** [(hoje - dataAbertura) / (1000 * 60 * 60 * 24 * 365)]; [NaN] when
    the founding date is not a valid date. *)
Definition anosDeAtividade (hoje : Z) (dataAbertura : option Z) : option Q :=
  match dataAbertura with
  | Some t => Some (JS.toDouble (JS.toDouble (inject_Z (hoje - t)) / inject_Z (Zpos msPorAno)))
  | None => None
  end.

(** [${Math.floor(x)}]. *)
Definition floorText (x : option Q) : string :=
  match x with
  | Some q => pretty (Qfloor q)
  | None => "NaN"
  end.

(** 2. Tempo de atividade.  [Date_parse] is the time value of
    [new Date(text)] and [hoje] the clock. *)
Definition pontuarTempo (Date_parse : string -> option Z) (hoje : Z)
    (dadosCNPJ : Consulta.DadosCNPJ) (c : Calculo) : Calculo :=
  if truthy (Consulta.dataAbertura dadosCNPJ) then
    let dataAbertura := Date_parse (Consulta.dataAbertura dadosCNPJ) in
    let anosAtividade := anosDeAtividade hoje dataAbertura in
    if JS.geq anosAtividade 5 then
      c |> somar 25 |> setTempoAtividade 25
        |> push ("✅ Empresa com " ++ floorText anosAtividade ++ " anos de atividade")
    else if JS.geq anosAtividade 2 then
      c |> somar 15 |> setTempoAtividade 15
        |> push ("⚠️ Empresa com " ++ floorText anosAtividade ++ " anos de atividade")
    else if JS.geq anosAtividade 1 then
      c |> somar 8 |> setTempoAtividade 8
        |> push ("⚠️ Empresa nova (" ++ floorText anosAtividade ++ " ano)")
    else
      c |> push "❌ Empresa muito recente (menos de 1 ano)"
  else c.

(** [parseFloat(text.replace(/[^\d,]/g, '').replace(',', '.'))]. *)
Definition parseCapital (capitalSocial : string) : option Q :=
  JS.parseFloat
    (JS.replaceFirst "," "."
       (JS.keep (fun ch => JS.isDigit ch || Ascii.eqb ch ",") capitalSocial)).

(** 3. Capital social.  The field holds the text of the amount, which is
    what [.toString()] makes of it. *)
Definition pontuarCapital (dadosCNPJ : Consulta.DadosCNPJ) (c : Calculo) : Calculo :=
  if truthy (Consulta.capitalSocial dadosCNPJ) then
    let capital := parseCapital (Consulta.capitalSocial dadosCNPJ) in
    if JS.geq capital 1000000 then
      c |> somar 20 |> setCapitalSocial 20 |> push "✅ Capital social elevado (R$ 1M+)"
    else if JS.geq capital 100000 then
      c |> somar 15 |> setCapitalSocial 15 |> push "✅ Capital social adequado (R$ 100K+)"
    else if JS.geq capital 10000 then
      c |> somar 10 |> setCapitalSocial 10 |> push "⚠️ Capital social moderado (R$ 10K+)"
    else if JS.gt capital 0 then
      c |> somar 5 |> setCapitalSocial 5 |> push "⚠️ Capital social baixo"
    else
      c |> push "❌ Capital social não informado"
  else c.

Definition atividadesBaixoRisco : list string :=
  [ "consultoria"; "tecnologia"; "software"; "educação"; "saúde";
    "engenharia"; "arquitetura"; "advocacia"; "contabilidade" ].

Definition atividadesMedioRisco : list string :=
  [ "comércio"; "varejo"; "atacado"; "indústria"; "construção";
    "transporte"; "logística"; "alimentação" ].

(** 4. Atividade principal. *)
Definition pontuarAtividade (dadosCNPJ : Consulta.DadosCNPJ) (c : Calculo) : Calculo :=
  if truthy (Consulta.atividadePrincipal dadosCNPJ) then
    let atividade := JS.toLowerCase (Consulta.atividadePrincipal dadosCNPJ) in
    if existsb (fun palavra => JS.includes atividade palavra) atividadesBaixoRisco then
      c |> somar 15 |> setAtividadePrincipal 15 |> push "✅ Atividade de baixo risco"
    else if existsb (fun palavra => JS.includes atividade palavra) atividadesMedioRisco then
      c |> somar 10 |> setAtividadePrincipal 10 |> push "⚠️ Atividade de médio risco"
    else
      c |> somar 5 |> setAtividadePrincipal 5 |> push "⚠️ Atividade requer análise específica"
  else c.

(** 5. Endereço completo. *)
Definition pontuarEndereco (dadosCNPJ : Consulta.DadosCNPJ) (c : Calculo) : Calculo :=
  match Consulta.endereco dadosCNPJ with
  | Some e =>
      if truthy (Consulta.logradouro e) && truthy (Consulta.cep e) then
        c |> somar 10 |> setEndereco 10 |> push "✅ Endereço completo informado"
      else if truthy (Consulta.logradouro e) then
        c |> somar 5 |> setEndereco 5 |> push "⚠️ Endereço parcialmente informado"
      else
        c |> push "❌ Endereço incompleto"
  | None => c |> push "❌ Endereço incompleto"
  end.

(** The band and its colour. *)
Definition classificar (pontuacao : Z) : string * string :=
  if 80 <=? pontuacao then ("Excelente", "#28a745")
  else if 60 <=? pontuacao then ("Bom", "#17a2b8")
  else if 40 <=? pontuacao then ("Regular", "#ffc107")
  else if 20 <=? pontuacao then ("Baixo", "#fd7e14")
  else ("Crítico", "#dc3545").

(** [gerarRecomendacao(pontuacao, classificacao)]. *)
Definition gerarRecomendacao (pontuacao : Z) (classificacao : string) : string :=
  if 80 <=? pontuacao then
    "Cliente com excelente perfil. Recomendado para aprovação com condições preferenciais."
  else if 60 <=? pontuacao then
    "Cliente com bom perfil. Recomendado para aprovação com condições padrão."
  else if 40 <=? pontuacao then
    "Cliente com perfil regular. Recomenda-se análise adicional e condições restritivas."
  else if 20 <=? pontuacao then
    "Cliente com perfil de risco. Recomenda-se análise criteriosa e garantias adicionais."
  else
    "Cliente com perfil crítico. Não recomendado para aprovação sem análise presencial detalhada.".

(** The object of the early return, for when there is no data to score. *)
Definition indisponivel : ScoreEstimado :=
  {| score := 0; classificacao := "Indisponível"; cor := None;
     fatores := ["Dados do CNPJ não disponíveis"];
     detalhes := {| situacao := 0; tempo_atividade := 0; capital_social := 0;
                    atividade_principal := 0; endereco := 0 |};
     recomendacao := None; calculadoEm := None |}.

(** [calcularScoreEstimado(dadosCNPJ)]; [None] is [null].  On a profile
    of the shape [DadosCNPJ] no step of the body raises, so the [catch]
    of the source is not reached. *)
Definition calcularScoreEstimado (Date_parse : string -> option Z) (hoje : Z)
    (dadosCNPJ : option Consulta.DadosCNPJ) : ScoreEstimado :=
  match dadosCNPJ with
  | None => indisponivel
  | Some dados =>
      if negb (Consulta.success dados) then indisponivel
      else
        let c := inicio |> pontuarSituacao dados
                        |> pontuarTempo Date_parse hoje dados
                        |> pontuarCapital dados
                        |> pontuarAtividade dados
                        |> pontuarEndereco dados in
        let '(classificacao, cor) := classificar (pontuacao c) in
        {| score := pontuacao c;
           classificacao := classificacao;
           cor := Some cor;
           fatores := c_fatores c;
           detalhes := c_detalhes c;
           recomendacao := Some (gerarRecomendacao (pontuacao c) classificacao);
           calculadoEm := Some hoje |}
  end.

(** The sum of the five values of a breakdown. *)
Definition somaDetalhes (d : Detalhes) : Z :=
  situacao d + tempo_atividade d + capital_social d + atividade_principal d + endereco d.

(** The date-only ISO form [YYYY-MM-DD], read as midnight UTC: the one
    form of [Date.parse] the examples below use.  Anything else, an
    impossible day of the month included, is [None] here. *)
Definition diasNoMes (y m : Z) : Z :=
  if m =? 2 then
    if ((y mod 4 =? 0) && negb (y mod 100 =? 0)) || (y mod 400 =? 0) then 29 else 28
  else if (m =? 4) || (m =? 6) || (m =? 9) || (m =? 11) then 30
  else 31.

Definition diasDesdeEpoca (y m d : Z) : Z :=
  let y' := if m <=? 2 then y - 1 else y in
  let era := y' / 400 in
  let yoe := y' - era * 400 in
  let doy := (153 * (if 2 <? m then m - 3 else m + 9) + 2) / 5 + d - 1 in
  let doe := yoe * 365 + yoe / 4 - yoe / 100 + doy in
  era * 146097 + doe - 719468.

Definition isoDate (s : string) : option Z :=
  let digits t := (String.length t =? String.length (JS.keep JS.isDigit t))%nat in
  let y := substring 0 4 s in
  let m := substring 5 2 s in
  let d := substring 8 2 s in
  if (String.length s =? 10)%nat
     && String.eqb (substring 4 1 s) "-" && String.eqb (substring 7 1 s) "-"
     && digits y && digits m && digits d then
    let y := JS.digitsValue 0 y in
    let m := JS.digitsValue 0 m in
    let d := JS.digitsValue 0 d in
    if (1 <=? m) && (m <=? 12) && (1 <=? d) && (d <=? diasNoMes y m) then
      Some (diasDesdeEpoca y m d * 86400000)
    else None
  else None.

(** A successful profile with the given status, founding date and
    capital, and nothing else filled in. *)
Definition perfil (situacao dataAbertura capitalSocial : string) : Consulta.DadosCNPJ :=
  {| Consulta.success := true; Consulta.error := None;
     Consulta.cnpj := "11222333000181"; Consulta.razaoSocial := "ACME LTDA";
     Consulta.nomeFantasia := ""; Consulta.situacao := situacao;
     Consulta.dataSituacao := ""; Consulta.motivoSituacao := "";
     Consulta.dataAbertura := dataAbertura;
     Consulta.naturezaJuridica := ""; Consulta.porte := "";
     Consulta.regimeTributario := ""; Consulta.capitalSocial := capitalSocial;
     Consulta.endereco := None; Consulta.telefone := ""; Consulta.email := "";
     Consulta.atividadePrincipal := ""; Consulta.atividadesSecundarias := [];
     Consulta.socios := []; Consulta.dataUltimaAtualizacao := "";
     Consulta.source := Some "BrasilAPI"; Consulta.official := Some true;
     Consulta.consultedAt := Some 1735689600000 |}.

(** The profile [d] with another text in its capital field. *)
Definition comCapital (texto : string) (d : Consulta.DadosCNPJ) : Consulta.DadosCNPJ :=
  {| Consulta.success := Consulta.success d;
     Consulta.error := Consulta.error d;
     Consulta.cnpj := Consulta.cnpj d;
     Consulta.razaoSocial := Consulta.razaoSocial d;
     Consulta.nomeFantasia := Consulta.nomeFantasia d;
     Consulta.situacao := Consulta.situacao d;
     Consulta.dataSituacao := Consulta.dataSituacao d;
     Consulta.motivoSituacao := Consulta.motivoSituacao d;
     Consulta.dataAbertura := Consulta.dataAbertura d;
     Consulta.naturezaJuridica := Consulta.naturezaJuridica d;
     Consulta.porte := Consulta.porte d;
     Consulta.regimeTributario := Consulta.regimeTributario d;
     Consulta.capitalSocial := texto;
     Consulta.endereco := Consulta.endereco d;
     Consulta.telefone := Consulta.telefone d;
     Consulta.email := Consulta.email d;
     Consulta.atividadePrincipal := Consulta.atividadePrincipal d;
     Consulta.atividadesSecundarias := Consulta.atividadesSecundarias d;
     Consulta.socios := Consulta.socios d;
     Consulta.dataUltimaAtualizacao := Consulta.dataUltimaAtualizacao d;
     Consulta.source := Consulta.source d;
     Consulta.official := Consulta.official d;
     Consulta.consultedAt := Consulta.consultedAt d |}.

End Score.


(** ** Text as JavaScript sees it: UTF-16 code units *)

Module Texto.

(** What a byte that cannot continue a sequence starts: a code point of
    its own, or a sequence with so many bytes to come. *)
Definition comeco (b : N) : option N * nat * N :=
  if (b <? 128)%N then (Some b, 0%nat, 0%N)
  else if (b <? 192)%N then (Some 65533%N, 0%nat, 0%N)
  else if (b <? 224)%N then (None, 1%nat, (b - 192)%N)
  else if (b <? 240)%N then (None, 2%nat, (b - 224)%N)
  else if (b <? 248)%N then (None, 3%nat, (b - 240)%N)
  else (Some 65533%N, 0%nat, 0%N).

(** The code points a UTF-8 text encodes.  [pend] bytes of the current
    sequence are still to come and [acc] holds its bits so far.  A byte
    out of place reads as U+FFFD; a text that is not well-formed UTF-8
    stands for no JavaScript string. *)
Fixpoint decodificar (pend : nat) (acc : N) (s : string) : list N :=
  match s with
  | EmptyString => match pend with O => [] | S _ => [65533%N] end
  | String c r =>
      let b := N_of_ascii c in
      match pend with
      | O =>
          match comeco b with
          | (Some cp, _, _) => cp :: decodificar 0 0 r
          | (None, p, a) => decodificar p a r
          end
      | S k =>
          if ((128 <=? b) && (b <? 192))%N then
            let acc := (acc * 64 + (b - 128))%N in
            match k with
            | O => acc :: decodificar 0 0 r
            | S _ => decodificar k acc r
            end
          else
            65533%N ::
            match comeco b with
            | (Some cp, _, _) => cp :: decodificar 0 0 r
            | (None, p, a) => decodificar p a r
            end
      end
  end.

Definition codePoints (s : string) : list N := decodificar 0 0 s.

(** The UTF-16 code units of a code point: itself, or a surrogate pair. *)
Definition unidades (cp : N) : list N :=
  if (cp <? 65536)%N then [cp]
  else [(55296 + (cp - 65536) / 1024)%N; (56320 + (cp - 65536) mod 1024)%N].

(** The string as JavaScript indexes it. *)
Definition units (s : string) : list N := concat (map unidades (codePoints s)).

(** [s.length]. *)
Definition length16 (s : string) : nat := length (units s).

(** White space and line terminators: what [trim] removes and [\s]
    matches. *)
Definition isSpace (u : N) : bool :=
  ((9 <=? u) && (u <=? 13) || (u =? 32) || (u =? 160) || (u =? 5760)
   || (8192 <=? u) && (u <=? 8202) || (u =? 8232) || (u =? 8233)
   || (u =? 8239) || (u =? 8287) || (u =? 12288) || (u =? 65279))%N.

Fixpoint trimStart (l : list N) : list N :=
  match l with
  | u :: r => if isSpace u then trimStart r else l
  | [] => []
  end.

(** [s.trim()], as code units. *)
Definition trim (l : list N) : list N := rev (trimStart (rev (trimStart l))).

(** [s.trim().length]. *)
Definition trimLength (s : string) : nat := length (trim (units s)).

(** [[0-9]] on a code unit. *)
Definition ehDigito (u : N) : bool := ((48 <=? u) && (u <=? 57))%N.

(** A regular expression that is a sequence of character classes, each
    taken once or one or more times, anchored at both ends. *)
Inductive Item :=
| One (p : N -> bool)
| Plus (p : N -> bool).

(** [/^...$/.test(s)], by backtracking over the repetitions. *)
Fixpoint test (r : list Item) : list N -> bool :=
  match r with
  | [] => fun l => match l with [] => true | _ => false end
  | One p :: r' =>
      fun l => match l with
               | u :: t => p u && test r' t
               | [] => false
               end
  | Plus p :: r' =>
      fix mais (l : list N) : bool :=
        match l with
        | u :: t => p u && (test r' t || mais t)
        | [] => false
        end
  end.

(** [[^\s@]]. *)
Definition naoEspacoNemArroba (u : N) : bool := negb (isSpace u) && negb (u =? 64)%N.

(** [/^[^\s@]+@[^\s@]+\.[^\s@]+$/]. *)
Definition emailRegex : list Item :=
  [ Plus naoEspacoNemArroba; One (N.eqb 64); Plus naoEspacoNemArroba;
    One (N.eqb 46); Plus naoEspacoNemArroba ].

(** [s.replace(/[^...]/g, c)] where the class is within ASCII: the code
    units of the class stay, each other one becomes [c]. *)
Definition replaceOutside (p : N -> bool) (c : ascii) (s : string) : string :=
  string_of_list_ascii (map (fun u => if p u then ascii_of_N u else c) (units s)).

(** The characters [encodeURIComponent] leaves as they are:
    [A-Z a-z 0-9 - _ . ! ~ * ' ( )]. *)
Definition naoReservado (b : N) : bool :=
  ((65 <=? b) && (b <=? 90) || (97 <=? b) && (b <=? 122) || (48 <=? b) && (b <=? 57)
   || (b =? 45) || (b =? 95) || (b =? 46) || (b =? 33) || (b =? 126)
   || (b =? 42) || (b =? 39) || (b =? 40) || (b =? 41))%N.

(** Every character of the string is in the class. *)
Fixpoint todos (p : ascii -> bool) (s : string) : bool :=
  match s with
  | EmptyString => true
  | String c r => p c && todos p r
  end.

(** [encodeURIComponent(s)]: every byte of the UTF-8 encoding that is
    not unreserved becomes [%XX]. *)
Fixpoint encodeURIComponent (s : string) : string :=
  match s with
  | EmptyString => EmptyString
  | String c r =>
      let b := N_of_ascii c in
      if naoReservado b then String c (encodeURIComponent r)
      else String "%" (String (JS.hexDigit (b / 16))
                         (String (JS.hexDigit (b mod 16)) (encodeURIComponent r)))
  end.

(** The characters of an encoded component: the unreserved ones and the
    percent sign. *)
Definition escapado (c : ascii) : bool := naoReservado (N_of_ascii c) || Ascii.eqb c "%".

Definition hexVal (c : ascii) : option N :=
  let n := N_of_ascii c in
  if ((48 <=? n) && (n <=? 57))%N then Some (n - 48)%N
  else if ((65 <=? n) && (n <=? 70))%N then Some (n - 55)%N
  else if ((97 <=? n) && (n <=? 102))%N then Some (n - 87)%N
  else None.

(** A code point that [n] octets may encode: not below [lo] (no
    overlong form), not a surrogate, not beyond U+10FFFF. *)
Definition escalar (lo cp : N) : bool :=
  ((lo <=? cp) && (cp <=? 1114111) && negb ((55296 <=? cp) && (cp <=? 57343)))%N.

(** [decodeURIComponent(s)]; [None] is the [URIError].  An escape below
    [80] is its character.  An escape from [C0] to [F7] opens a
    sequence of two to four escapes that must be the UTF-8 encoding of
    a code point; [pend] of them are still to come, [acc] holds the
    bits so far, [lo] the least code point of that length and [seq] the
    octets read.  Everything else is copied. *)
Fixpoint decodeEscapes (pend : nat) (acc lo : N) (seq : string) (s : string)
    : option string :=
  match s with
  | EmptyString => match pend with O => Some EmptyString | S _ => None end
  | String c r =>
      if Ascii.eqb c "%" then
        match r with
        | String h1 (String h2 r') =>
            match hexVal h1, hexVal h2 with
            | Some a, Some b =>
                let B := (16 * a + b)%N in
                match pend with
                | O =>
                    if (B <? 128)%N then String (ascii_of_N B) <$> decodeEscapes 0 0 0 "" r'
                    else if (B <? 192)%N then None
                    else if (B <? 224)%N then
                      decodeEscapes 1 (B - 192) 128 (String (ascii_of_N B) "") r'
                    else if (B <? 240)%N then
                      decodeEscapes 2 (B - 224) 2048 (String (ascii_of_N B) "") r'
                    else if (B <? 248)%N then
                      decodeEscapes 3 (B - 240) 65536 (String (ascii_of_N B) "") r'
                    else None
                | S k =>
                    if ((128 <=? B) && (B <? 192))%N then
                      let acc := (acc * 64 + (B - 128))%N in
                      let seq := (seq ++ String (ascii_of_N B) "")%string in
                      match k with
                      | O =>
                          if escalar lo acc then
                            String.append seq <$> decodeEscapes 0 0 0 "" r'
                          else None
                      | S _ => decodeEscapes k acc lo seq r'
                      end
                    else None
                end
            | _, _ => None
            end
        | _ => None
        end
      else
        match pend with
        | O => String c <$> decodeEscapes 0 0 0 "" r
        | S _ => None
        end
  end.

Definition decodeURIComponent (s : string) : option string := decodeEscapes 0 0 0 "" s.

End Texto.


(** ** The server around the registry: sweep and download routes *)

Module Servidor.
Import TempLinks.

(** The two pieces of state the routes and the sweep share: the map of
    links and the files that exist on disk, by path. *)
Record Estado := {
  tempLinks : gmap string TempLink;
  disco : gset string
}.

Definition inicial : Estado := {| tempLinks := ∅; disco := ∅ |}.

(** [now > link.expiresAt || !link.active]. *)
Definition vencido (now : Z) (link : TempLink) : bool :=
  (expiresAt link <? now) || negb (active link).

(** [fs.existsSync(p)]; the empty path never exists. *)
Definition existsSync (p : string) (disco : gset string) : bool :=
  Score.truthy p && bool_decide (p ∈ disco).

(** The inner loop of the sweep: [link.files.forEach(...)].  A file is
    unlinked when its path is not empty and exists; [unlinkFails] tells
    for which paths [fs.unlinkSync] raises, which the loop logs and
    passes over. *)
Definition removerArquivos (unlinkFails : string -> bool) (files : list FileRef)
    (disco : gset string) : gset string :=
  foldl (fun d file =>
           if Score.truthy (path file) && existsSync (path file) d then
             if unlinkFails (path file) then d else d ∖ {[path file]}
           else d)
        disco files.

(** [cleanupFiles(files)]: every file that exists is unlinked, a
    failure to do so logged and passed over. *)
Definition cleanupFiles (unlinkFails : string -> bool) (files : list FileRef)
    (disco : gset string) : gset string :=
  foldl (fun d file =>
           if existsSync (path file) d then
             if unlinkFails (path file) then d else d ∖ {[path file]}
           else d)
        disco files.

(** The body of the sweep's loop for one entry of the map. *)
Definition limparEntrada (now : Z) (unlinkFails : string -> bool)
    (s : Estado) (entry : string * TempLink) : Estado :=
  if vencido now entry.2 then
    {| tempLinks := delete entry.1 (tempLinks s);
       disco := removerArquivos unlinkFails (files entry.2) (disco s) |}
  else s.

Definition limparEntradas (now : Z) (unlinkFails : string -> bool)
    (entries : list (string * TempLink)) (s : Estado) : Estado :=
  foldl (limparEntrada now unlinkFails) s entries.

(** [cleanupExpiredLinks()].  The Map is walked in insertion order,
    which the model does not keep; the properties below are proved for
    every order of the entries. *)
Definition cleanupExpiredLinks (now : Z) (unlinkFails : string -> bool) (s : Estado)
    : Estado :=
  limparEntradas now unlinkFails (map_to_list (tempLinks s)) s.

(** What a download route answers. *)
Inductive Resposta :=
| PaginaInvalida
| PaginaDownload (link : TempLink)
| Erro404 (error : string)
| Erro500
| Download (file : FileRef)
| Lote (nomes : list string).

Definition comLinks (reg : gmap string TempLink) (s : Estado) : Estado :=
  {| tempLinks := reg; disco := disco s |}.

(** [GET /download/:linkId]. *)
Definition rotaPagina (now : Z) (linkId : string) (s : Estado) : Resposta * Estado :=
  let '(validation, reg) := validateTempLink now linkId (tempLinks s) in
  match validation with
  | Invalid _ => (PaginaInvalida, comLinks reg s)
  | Valid link => (PaginaDownload link, comLinks reg s)
  end.

(** [GET /download/:linkId/file/:filename].  [filename] is the route
    parameter as Express hands it over.  [decodeURIComponent] runs
    inside the callback of [find], once per file looked at; when it
    raises, the error handler at the end of the file answers 500. *)
Definition rotaArquivo (now : Z) (linkId filename : string) (s : Estado)
    : Resposta * Estado :=
  let '(validation, reg) := validateTempLink now linkId (tempLinks s) in
  match validation with
  | Invalid reason => (Erro404 reason, comLinks reg s)
  | Valid link =>
      match files link with
      | [] => (Erro404 "Arquivo não encontrado", comLinks reg s)
      | _ :: _ =>
          match Texto.decodeURIComponent filename with
          | None => (Erro500, comLinks reg s)
          | Some nome =>
              match List.find (fun f => String.eqb (originalname f) nome) (files link) with
              | None => (Erro404 "Arquivo não encontrado", comLinks reg s)
              | Some file =>
                  if existsSync (path file) (disco s) then
                    (Download file, comLinks (incrementDownload linkId reg) s)
                  else (Erro404 "Arquivo não existe no servidor", comLinks reg s)
              end
          end
      end
  end.

(** [GET /download/:linkId/zip]. *)
Definition rotaZip (now : Z) (linkId : string) (s : Estado) : Resposta * Estado :=
  let '(validation, reg) := validateTempLink now linkId (tempLinks s) in
  match validation with
  | Invalid reason => (Erro404 reason, comLinks reg s)
  | Valid link =>
      (Lote (map originalname (files link)), comLinks (incrementDownload linkId reg) s)
  end.

(** What happens to the two pieces of state while the server runs.  An
    upload is what a route that takes files does to them: multer has
    stored the files; [POST /api/consultoria] registers a link with
    [generateTempLink(req.files, 5, 48)] when the form is valid and
    there is at least one file ([comLink]); the files are removed again
    with [cleanupFiles] on a rejected form, on an error (before or after
    the link was registered) and when no link was made ([limpa]). *)
Inductive Evento :=
| Upload (rnd : list ascii) (now : Z) (files : list FileRef) (comLink limpa : bool)
         (unlinkFails : string -> bool)
| GetPagina (now : Z) (linkId : string)
| GetArquivo (now : Z) (linkId filename : string)
| GetZip (now : Z) (linkId : string)
| Limpeza (now : Z) (unlinkFails : string -> bool).

Definition passo (e : Evento) (s : Estado) : option Resposta * Estado :=
  match e with
  | Upload rnd now fs comLink limpa unlinkFails =>
      let gravado := disco s ∪ list_to_set (map path fs) in
      (None,
       {| tempLinks :=
            match fs with
            | _ :: _ =>
                if comLink then
                  snd (generateTempLink rnd now (Some fs) (Some 5) (Some 48) (tempLinks s))
                else tempLinks s
            | [] => tempLinks s
            end;
          disco := if limpa then cleanupFiles unlinkFails fs gravado else gravado |})
  | GetPagina now linkId =>
      (Some (fst (rotaPagina now linkId s)), snd (rotaPagina now linkId s))
  | GetArquivo now linkId filename =>
      (Some (fst (rotaArquivo now linkId filename s)),
       snd (rotaArquivo now linkId filename s))
  | GetZip now linkId =>
      (Some (fst (rotaZip now linkId s)), snd (rotaZip now linkId s))
  | Limpeza now unlinkFails => (None, cleanupExpiredLinks now unlinkFails s)
  end.

Definition executar (eventos : list Evento) (s : Estado) : Estado :=
  foldl (fun s e => snd (passo e s)) s eventos.

(** A response that counts as a download: the two routes that call
    [incrementDownload]. *)
Definition servido (r : option Resposta) : bool :=
  match r with
  | Some (Download _) | Some (Lote _) => true
  | _ => false
  end.

(** The link an event asks for. *)
Definition pedido (e : Evento) : option string :=
  match e with
  | GetPagina _ linkId | GetArquivo _ linkId _ | GetZip _ linkId => Some linkId
  | Upload _ _ _ _ _ _ | Limpeza _ _ => None
  end.

(** How many of the events were served a download of [linkId]. *)
Fixpoint servidos (linkId : string) (eventos : list Evento) (s : Estado) : nat :=
  match eventos with
  | [] => O
  | e :: r =>
      ((if servido (fst (passo e s)) && bool_decide (pedido e = Some linkId) then 1 else 0)
       + servidos linkId r (snd (passo e s)))%nat
  end.

(** The event registers no link under the identifier [linkId]. *)
Definition naoEmite (linkId : string) (e : Evento) : Prop :=
  match e with
  | Upload rnd _ (_ :: _) true _ _ => JS.toHexUpper rnd <> linkId
  | _ => True
  end.

(** No upload among the events draws the identifier [linkId]. *)
Definition semReemissao (linkId : string) (eventos : list Evento) : Prop :=
  Forall (naoEmite linkId) eventos.

(** What an event that asks for [k] (or for nothing) does to the record
    of [id]: the record stays away when it was away; when it was there
    it is removed, or kept with its budget, never reactivated, and its
    counter goes up by one exactly when a download of [id] was served,
    which takes an active record with downloads left. *)
Definition efeitoDe (id : string) (k : option string) (s : Estado)
    (res : option Resposta * Estado) : Prop :=
  let served := servido (fst res) && bool_decide (k = Some id) in
  match tempLinks s !! id with
  | None => tempLinks (snd res) !! id = None /\ served = false
  | Some l =>
      (tempLinks (snd res) !! id = None /\ served = false) \/
      exists l', tempLinks (snd res) !! id = Some l' /\
                 maxDownloads l' = maxDownloads l /\
                 (active l = false -> active l' = false) /\
                 if served then active l = true /\ downloads l < maxDownloads l /\
                                downloads l' = downloads l + 1
                 else downloads l' = downloads l
  end.

(** A state for the examples: a live link with two files, one of them
    with a percent sign in its name, and a link that has expired; the
    three files are on disk. *)
Definition contrato : FileRef :=
  {| originalname := "contrato.pdf"; size := 1024; path := "uploads/1_contrato.pdf" |}.

Definition relatorio : FileRef :=
  {| originalname := "relatorio 100%.pdf"; size := 2048;
     path := "uploads/1_relatorio_100_.pdf" |}.

Definition balanco : FileRef :=
  {| originalname := "balanco.pdf"; size := 4096; path := "uploads/0_balanco.pdf" |}.

Definition vivo : TempLink :=
  {| files := [contrato; relatorio]; createdAt := 100; downloads := 0;
     maxDownloads := 5; expiresAt := 1000; active := true |}.

Definition velho : TempLink :=
  {| files := [balanco]; createdAt := 0; downloads := 2;
     maxDownloads := 5; expiresAt := 10; active := true |}.

Definition estadoExemplo : Estado :=
  {| tempLinks := {[ "AA" := vivo; "BB" := velho ]};
     disco := {[ path contrato; path relatorio; path balanco ]} |}.

End Servidor.


(** ** The dashboard's lookup endpoint *)

Module Painel.

Inductive RespostaConsulta :=
| CnpjInvalido
| Resultado (cnpj : string) (dados : Consulta.DadosCNPJ) (score : Score.ScoreEstimado)
            (consultadoEm : Z).

(** HTTP status of the answer: [res.status(400)] or the default 200. *)
Definition status (r : RespostaConsulta) : Z :=
  match r with
  | CnpjInvalido => 400
  | Resultado _ _ _ _ => 200
  end.

(** [GET /api/consulta-cnpj/:cnpj], with the URLs it requested.  The
    three readings of the clock are [now] (inside the lookup), [hoje]
    (inside the score) and [fim] (for [consultadoEm]). *)
Definition rotaConsultaCNPJ (fetch : string -> Consulta.Response)
    (Date_parse : string -> option Z) (now hoje fim : Z) (cnpj : string)
    : RespostaConsulta * list string :=
  if (Texto.length16 cnpj <? 14)%nat then (CnpjInvalido, [])
  else
    let '(dadosCNPJ, log) := Consulta.consultarCNPJ fetch now cnpj in
    let scoreEstimado := Score.calcularScoreEstimado Date_parse hoje (Some dadosCNPJ) in
    (Resultado cnpj dadosCNPJ scoreEstimado fim, log).

End Painel.


(** ** The consultancy form *)

Module Formulario.

(** [req.body]: the text fields of the form; a field that was not sent
    is the empty string. *)
Record FormData := {
  nomeCompleto : string;
  email : string;
  telefone : string;
  empresa : string;
  cnpj : string;
  tempoExistencia : string;
  faturamentoAnual : string;
  tipoConsultoria : string;
  mensagem : string
}.

Record Validacao := {
  isValid : bool;
  errors : list string
}.

(** [if (cond) errors.push(msg)]. *)
Definition exigir (cond : bool) (msg : string) (errors : list string) : list string :=
  if cond then (errors ++ [msg])%list else errors.

Definition vazio (s : string) : bool := negb (Score.truthy s).

(** [validateFormData(data)]. *)
Definition validateFormData (data : FormData) : Validacao :=
  let errors := [] in
  let errors :=
    exigir (vazio (nomeCompleto data) || (Texto.trimLength (nomeCompleto data) <? 2)%nat)
      "Nome completo é obrigatório e deve ter pelo menos 2 caracteres" errors in
  let errors :=
    exigir (vazio (email data)
            || negb (Texto.test Texto.emailRegex (Texto.units (email data))))
      "Email válido é obrigatório" errors in
  let errors :=
    exigir (vazio (telefone data) || (Texto.trimLength (telefone data) <? 10)%nat)
      "Telefone válido é obrigatório" errors in
  let errors :=
    exigir (vazio (empresa data) || (Texto.trimLength (empresa data) <? 2)%nat)
      "Nome da empresa é obrigatório" errors in
  let errors :=
    if vazio (cnpj data) || (Texto.trimLength (cnpj data) <? 14)%nat then
      (errors ++ ["CNPJ é obrigatório e deve ser válido"])%list
    else
      let cnpjNumbers := JS.keep JS.isDigit (cnpj data) in
      exigir (negb (String.length cnpjNumbers =? 14)%nat)
        "CNPJ deve conter 14 dígitos" errors in
  let errors :=
    exigir (vazio (tempoExistencia data))
      "Tempo de existência da empresa é obrigatório" errors in
  let errors :=
    exigir (vazio (faturamentoAnual data)) "Faturamento anual é obrigatório" errors in
  let errors :=
    exigir (vazio (tipoConsultoria data)) "Tipo de consultoria é obrigatório" errors in
  let errors :=
    exigir (vazio (mensagem data) || (Texto.trimLength (mensagem data) <? 5)%nat)
      "Descrição do projeto é obrigatória e deve ter pelo menos 5 caracteres" errors in
  {| isValid := (length errors =? 0)%nat; errors := errors |}.

(** A form that passes. *)
Definition formularioExemplo : FormData :=
  {| nomeCompleto := "Maria Souza";
     email := "maria@acme.com.br";
     telefone := "(92) 99988-9392";
     empresa := "ACME LTDA";
     cnpj := "11.222.333/0001-81";
     tempoExistencia := "5 anos";
     faturamentoAnual := "ate 1 milhao";
     tipoConsultoria := "credito";
     mensagem := "Capital de giro" |}.

End Formulario.


(** ** Uploads: stored names, accepted types, the error handler *)

Module Upload.

(** [[a-zA-Z0-9.-]]. *)
Definition permitido (u : N) : bool :=
  ((97 <=? u) && (u <=? 122) || (65 <=? u) && (u <=? 90) || (48 <=? u) && (u <=? 57)
   || (u =? 46) || (u =? 45))%N.

(** [file.originalname.replace(/[^a-zA-Z0-9.-]/g, '_')]. *)
Definition sanitizar (originalname : string) : string :=
  Texto.replaceOutside permitido "_" originalname.

(** The characters a stored name is made of: those of the class and the
    replacement. *)
Definition seguro (c : ascii) : bool := permitido (N_of_ascii c) || Ascii.eqb c "_".

(** The [filename] callback of the disk storage; [timestamp] is
    [Date.now()]. *)
Definition filename (timestamp : Z) (originalname : string) : string :=
  pretty timestamp ++ "_" ++ sanitizar originalname.

Definition allowedTypes : list string :=
  [ "application/pdf";
    "application/msword";
    "application/vnd.openxmlformats-officedocument.wordprocessingml.document" ].

(** An error on its way to the error handler: one of multer's own, with
    its code, or any other [Error]. *)
Inductive Erro :=
| MulterError (code message : string)
| OutroErro (message : string).

Definition mensagem (e : Erro) : string :=
  match e with
  | MulterError _ m => m
  | OutroErro m => m
  end.

(** The [fileFilter] callback: [None] accepts the file ([cb(null,
    true)]), [Some] is the error handed to [cb]. *)
Definition fileFilter (mimetype : string) : option Erro :=
  if existsb (String.eqb mimetype) allowedTypes then None
  else Some (OutroErro "Apenas arquivos PDF, DOC e DOCX são permitidos").

(** The error-handling middleware: status and message of its answer. *)
Definition tratarErro (error : Erro) : Z * string :=
  let multer :=
    match error with
    | MulterError code _ =>
        if String.eqb code "LIMIT_FILE_SIZE" then
          Some (400, "Arquivo muito grande. Tamanho máximo: 50MB")
        else if String.eqb code "LIMIT_FILE_COUNT" then
          Some (400, "Muitos arquivos. Máximo: 10 arquivos")
        else None
    | OutroErro _ => None
    end in
  match multer with
  | Some r => r
  | None =>
      if String.eqb (mensagem error) "Apenas arquivos PDF são permitidos" then
        (400, mensagem error)
      else (500, "Erro interno do servidor")
  end.

End Upload.


(** ** The WhatsApp link *)

Module WhatsApp.

(** [generateWhatsAppURL(phoneNumber, message)]. *)
Definition generateWhatsAppURL (phoneNumber message : string) : string :=
  let cleanPhone := JS.keep JS.isDigit phoneNumber in
  let fullPhone := if String.prefix "55" cleanPhone then cleanPhone
                   else "55" ++ cleanPhone in
  let encodedMessage := Texto.encodeURIComponent message in
  "https://wa.me/" ++ fullPhone ++ "?text=" ++ encodedMessage.

End WhatsApp.


(** ** The input masks of the page ([MaskUtils]) *)

Module MaskUtils.

(** [s.substring(a, b)] for [a <= b], and [s.substring(a)]. *)
Definition sub (a b : nat) (s : string) : string := substring a (b - a) s.

Definition from (a : nat) (s : string) : string := substring a (String.length s - a) s.

(** [removeMask(value)]: [value.replace(/\D/g, '')]. *)
Definition removeMask (value : string) : string := JS.keep JS.isDigit value.

(** [phoneMask(value)]. *)
Definition phoneMask (value : string) : string :=
  let numbers := removeMask value in
  let limitedNumbers := sub 0 11 numbers in
  if (String.length limitedNumbers <=? 2)%nat then limitedNumbers
  else if (String.length limitedNumbers <=? 7)%nat then
    "(" ++ sub 0 2 limitedNumbers ++ ") " ++ from 2 limitedNumbers
  else
    "(" ++ sub 0 2 limitedNumbers ++ ") " ++ sub 2 7 limitedNumbers
        ++ "-" ++ from 7 limitedNumbers.

(** [cnpjMask(value)]. *)
Definition cnpjMask (value : string) : string :=
  let numbers := removeMask value in
  let limitedNumbers := sub 0 14 numbers in
  if (String.length limitedNumbers <=? 2)%nat then limitedNumbers
  else if (String.length limitedNumbers <=? 5)%nat then
    sub 0 2 limitedNumbers ++ "." ++ from 2 limitedNumbers
  else if (String.length limitedNumbers <=? 8)%nat then
    sub 0 2 limitedNumbers ++ "." ++ sub 2 5 limitedNumbers ++ "." ++ from 5 limitedNumbers
  else if (String.length limitedNumbers <=? 12)%nat then
    sub 0 2 limitedNumbers ++ "." ++ sub 2 5 limitedNumbers ++ "."
      ++ sub 5 8 limitedNumbers ++ "/" ++ from 8 limitedNumbers
  else
    sub 0 2 limitedNumbers ++ "." ++ sub 2 5 limitedNumbers ++ "."
      ++ sub 5 8 limitedNumbers ++ "/" ++ sub 8 12 limitedNumbers
      ++ "-" ++ from 12 limitedNumbers.

(** [validatePhone(phone)]. *)
Definition validatePhone (phone : string) : bool :=
  let numbers := removeMask phone in
  (String.length numbers =? 10)%nat || (String.length numbers =? 11)%nat.

(** [validateCNPJ(cnpj)]. *)
Definition validateCNPJ (cnpj : string) : bool :=
  let numbers := removeMask cnpj in
  (String.length numbers =? 14)%nat.

End MaskUtils.


(** * Properties *)

(** ** The registry of temporary links *)

Section TempLinksFacts.
Import TempLinks.

Lemma within_budget_insert (reg : gmap string TempLink) linkId link :
  within_budget reg -> downloads link <= maxDownloads link ->
  within_budget (<[linkId := link]> reg).
Proof.
  intros Hreg Hlink k l. rewrite lookup_insert.
  case_decide; [intros [= <-]; exact Hlink | apply Hreg].
Qed.

Lemma validateTempLink_validates now linkId (reg : gmap string TempLink) :
  validates now reg linkId (validateTempLink now linkId reg).
Proof.
  unfold validateTempLink.
  destruct (reg !! linkId) as [link|] eqn:Hl; [|by constructor].
  destruct (active link) eqn:Ha; simpl; [|by econstructor].
  destruct (expiresAt link <? now) eqn:He.
  { apply validates_expired; [done..|lia]. }
  destruct (maxDownloads link <=? downloads link) eqn:Hd.
  { apply validates_exhausted; [done..|lia|lia]. }
  apply validates_valid; [done..|lia|lia].
Qed.

Lemma validates_budget now linkId (reg : gmap string TempLink) r :
  validates now reg linkId r -> within_budget reg -> within_budget (snd r).
Proof.
  intros [ | link Hl _ | link Hl _ _ | link Hl _ _ _ | link Hl _ _ _ ] Hreg; simpl;
    try exact Hreg; apply within_budget_insert; try exact Hreg; exact (Hreg _ _ Hl).
Qed.

Lemma validates_valid_inv now linkId (reg : gmap string TempLink) link reg' :
  validates now reg linkId (Valid link, reg') ->
  reg' = reg /\ reg !! linkId = Some link /\ active link = true /\
  now <= expiresAt link /\ downloads link < maxDownloads link.
Proof. inversion 1; subst; auto. Qed.

Lemma guarded_run ops : forall last (reg : gmap string TempLink),
  within_budget reg ->
  (forall linkId, last = Some linkId ->
     exists link, reg !! linkId = Some link /\ downloads link < maxDownloads link) ->
  guarded last reg ops = true ->
  within_budget (run ops reg).
Proof.
  induction ops as [|op ops IH]; intros last reg Hreg Hlast Hg; [exact Hreg|].
  destruct op as [rnd now fs m h | now linkId | linkId]; simpl in Hg |- *.
  - apply andb_true_iff in Hg as [Hm Hg].
    apply (IH None); [|intros ? [=]|exact Hg].
    apply within_budget_insert; [exact Hreg | simpl; lia].
  - pose proof (validateTempLink_validates now linkId reg) as Hv.
    destruct (validateTempLink now linkId reg) as [v reg'] eqn:Hval. simpl.
    apply (IH _ reg') in Hg; [exact Hg | exact (validates_budget _ _ _ _ Hv Hreg) |].
    intros k Hk. destruct v as [|link]; [discriminate|].
    injection Hk as <-.
    apply validates_valid_inv in Hv as (-> & Hl & _ & _ & Hd). eauto.
  - apply andb_true_iff in Hg as [Hl Hg]. apply bool_decide_eq_true in Hl.
    destruct (Hlast _ Hl) as (link & Hlink & Hd).
    apply (IH None); [|intros ? [=]|exact Hg].
    unfold incrementDownload. rewrite Hlink.
    apply within_budget_insert; [exact Hreg | simpl; lia].
Qed.


Lemma guarded_take ops : forall k last (reg : gmap string TempLink),
  guarded last reg ops = true -> guarded last reg (take k ops) = true.
Proof.
  induction ops as [|op ops IH]; intros [|k] last reg Hg; try reflexivity.
  destruct op as [rnd now fs m h | now linkId | linkId]; simpl in Hg |- *.
  - apply andb_true_iff in Hg as [Hm Hg]. rewrite Hm. simpl. by apply IH.
  - destruct (validateTempLink now linkId reg) as [v reg']. by apply IH.
  - apply andb_true_iff in Hg as [Hl Hg]. rewrite Hl. simpl. by apply IH.
Qed.

(** C1, as the code has it.  Take any sequence of issue, validate and
    consume calls, starting from the empty registry, in which links are
    issued with a budget that is not negative and every consume follows
    directly a validation of the same link that found it valid.  After
    each of its calls [downloads <= maxDownloads] holds of every
    record.  Issue stores its record with [downloads = 0]; consume adds
    one to the counter of a present record without looking at the
    limit, and leaves the registry as it is when the record is absent. *)
Theorem guarded_within_budget ops :
  guarded None ∅ ops = true ->
  (forall k, within_budget (run (take k ops) ∅)) /\
  (forall rnd now fs m h (reg : gmap string TempLink),
     exists link,
       snd (generateTempLink rnd now fs m h reg)
         !! fst (generateTempLink rnd now fs m h reg) = Some link /\
       downloads link = 0 /\ maxDownloads link = default 5 m) /\
  (forall linkId (reg : gmap string TempLink) link,
     reg !! linkId = Some link ->
     incrementDownload linkId reg !! linkId = Some (setDownloads (downloads link + 1) link) /\
     forall other, other <> linkId -> incrementDownload linkId reg !! other = reg !! other) /\
  (forall linkId (reg : gmap string TempLink),
     reg !! linkId = None -> incrementDownload linkId reg = reg).
Proof.
  intros Hg. split; [|split; [|split]].
  - intros k. apply (guarded_run (take k ops) None ∅);
      [intros j l; by rewrite lookup_empty | intros ? [=] | by apply guarded_take].
  - intros. eexists. simpl. rewrite lookup_insert_eq. split; [reflexivity | split; reflexivity].
  - intros linkId reg link Hl. unfold incrementDownload. rewrite Hl.
    split; [apply lookup_insert_eq | intros other Hne; by apply lookup_insert_ne].
  - intros linkId reg Hl. unfold incrementDownload. by rewrite Hl.
Qed.

End TempLinksFacts.


(** ** The lookup *)

Section ConsultaFacts.
Import Consulta.

Variable fetch : string -> Response.
Variable now : Z.

(** The attempt made at one provider. *)
Abbreviation attempt api := (tentar (fetch (api_url api)) api now).

Lemma keep_isDigit_digits s : JS.keep JS.isDigit (JS.keep JS.isDigit s) = JS.keep JS.isDigit s.
Proof.
  induction s as [|c s IH]; [reflexivity|]. simpl.
  destruct (JS.isDigit c) eqn:Hc; [simpl; rewrite Hc, IH; reflexivity | exact IH].
Qed.

Lemma normalizar_success data apiName :
  success (normalizarDadosCNPJ data apiName) = true <->
  razaoSocial (mapear data apiName) <> "".
Proof.
  unfold normalizarDadosCNPJ.
  destruct (razaoSocial (mapear data apiName)) eqn:Hr; simpl.
  - split; [discriminate | congruence].
  - split; [discriminate | intros _].
    unfold mapear. repeat case_match; reflexivity.
Qed.


(** What a successful attempt returns. *)
Lemma tentar_Some response api dados :
  tentar response api now = Some dados ->
  exists status data,
    response = Http status (Json (Some data)) /\ ok status = true /\
    prop (props data) "status" <> "ERROR" /\
    razaoSocial (mapear data (api_name api)) <> "" /\
    dados = anotar (mapear data (api_name api)) api now /\
    success dados = true /\
    source dados = Some (api_name api) /\
    official dados = Some (api_official api) /\
    consultedAt dados = Some now.
Proof.
  destruct response as [message | status [|[data|]]]; simpl; try discriminate;
    destruct (ok status) eqn:Hok; simpl; try discriminate.
  destruct (String.eqb_spec (prop (props data) "status") "ERROR") as [He|He]; [discriminate|].
  destruct (success (normalizarDadosCNPJ data (api_name api))) eqn:Hs; [|discriminate].
  intros [= <-]. exists status, data.
  pose proof Hs as Hr. apply normalizar_success in Hr.
  assert (Hn : normalizarDadosCNPJ data (api_name api) = mapear data (api_name api)).
  { unfold normalizarDadosCNPJ. destruct (razaoSocial (mapear data (api_name api))); congruence. }
  rewrite Hn in *. simpl. repeat split; auto.
Qed.



Lemma percorrer_success l :
  success (fst (percorrer fetch now l)) = true ->
  exists api, In api l /\ attempt api = Some (fst (percorrer fetch now l)).
Proof.
  induction l as [|a l IH]; simpl; [discriminate|].
  destruct (attempt a) as [dados|] eqn:Ha; simpl.
  - intros _. exists a. auto.
  - destruct (percorrer fetch now l) as [dados log]. simpl in *.
    intros Hs. destruct (IH Hs) as (api & Hin & Hapi). eauto.
Qed.

(** C4.  When the digits of the identifier are not exactly fourteen,
    the lookup returns a failure whose [source] is ['validacao'] and
    has requested no URL. *)
Theorem consultarCNPJ_validacao cnpj :
  String.length (JS.keep JS.isDigit cnpj) <> 14%nat ->
  success (fst (consultarCNPJ fetch now cnpj)) = false /\
  source (fst (consultarCNPJ fetch now cnpj)) = Some "validacao" /\
  snd (consultarCNPJ fetch now cnpj) = [].
Proof.
  intros Hlen. unfold consultarCNPJ.
  destruct (Nat.eqb_spec (String.length (JS.keep JS.isDigit cnpj)) 14); [contradiction|].
  simpl. auto.
Qed.


(** C9.  The mapping has a branch for ['BrasilAPI'] and one for
    ['ReceitaWS'] and none else: under any other name, that of the
    third provider included, it does not look at the body, leaves the
    legal name empty, and normalisation fails.  So a lookup that
    succeeds has one of the first two providers as its [source], never
    ['CNPJ.ws']. *)
Theorem cnpj_ws_never_source :
  (forall data data' apiName,
     apiName <> "BrasilAPI" -> apiName <> "ReceitaWS" ->
     mapear data apiName = mapear data' apiName) /\
  (forall data,
     razaoSocial (mapear data "CNPJ.ws") = "" /\
     success (normalizarDadosCNPJ data "CNPJ.ws") = false) /\
  (forall cnpj,
     success (fst (consultarCNPJ fetch now cnpj)) = true ->
     (source (fst (consultarCNPJ fetch now cnpj)) = Some "BrasilAPI" \/
      source (fst (consultarCNPJ fetch now cnpj)) = Some "ReceitaWS") /\
     source (fst (consultarCNPJ fetch now cnpj)) <> Some "CNPJ.ws").
Proof.
  split; [|split].
  - intros data data' apiName H1 H2. unfold mapear.
    destruct (String.eqb_spec apiName "BrasilAPI"); [contradiction|].
    destruct (String.eqb_spec apiName "ReceitaWS"); [contradiction|]. reflexivity.
  - intros data. split; reflexivity.
  - intros cnpj. unfold consultarCNPJ.
    destruct (negb (String.length (JS.keep JS.isDigit cnpj) =? 14)%nat); [discriminate|].
    intros Hs. apply percorrer_success in Hs as (api & Hin & Ha).
    apply tentar_Some in Ha as (status & data & _ & _ & _ & Hr & _ & _ & Hsrc & _).
    rewrite Hsrc. simpl in Hin.
    destruct Hin as [<- | [<- | [<- | []]]]; simpl in *;
      [split; [left; reflexivity | discriminate]
      |split; [right; reflexivity | discriminate]
      |contradiction].
Qed.

End ConsultaFacts.


(** ** The score *)

Section ScoreFacts.
Import Score.

Variable Date_parse : string -> option Z.
Variable hoje : Z.

(** Case analysis on the tests of a scoring step. *)
Ltac branches :=
  repeat match goal with
         | |- context [if ?b then _ else _] => destruct b
         | |- context [match ?o with Some _ => _ | None => _ end] => destruct o
         end.

(** Each step writes one field of the breakdown, its own, and adds to
    the total what it writes there. *)
Definition writes (own : Detalhes -> Z) (set : Z -> Calculo -> Calculo)
    (stage : Calculo -> Calculo) : Prop :=
  forall c,
    own (c_detalhes c) = 0 ->
    pontuacao (stage c) = pontuacao c + own (c_detalhes (stage inicio)) /\
    c_detalhes (stage c) = c_detalhes (set (own (c_detalhes (stage inicio))) c).

Ltac step_writes f :=
  intros [p fs [d1 d2 d3 d4 d5]]; simpl; intros ->; unfold f; branches; simpl;
  (split; [lia | reflexivity]).

Lemma pontuarSituacao_writes dados :
  writes situacao setSituacao (pontuarSituacao dados).
Proof. step_writes pontuarSituacao. Qed.

Lemma pontuarTempo_writes dados :
  writes tempo_atividade setTempoAtividade (pontuarTempo Date_parse hoje dados).
Proof. step_writes pontuarTempo. Qed.

Lemma pontuarCapital_writes dados :
  writes capital_social setCapitalSocial (pontuarCapital dados).
Proof. step_writes pontuarCapital. Qed.

Lemma pontuarAtividade_writes dados :
  writes atividade_principal setAtividadePrincipal (pontuarAtividade dados).
Proof. step_writes pontuarAtividade. Qed.

Lemma pontuarEndereco_writes dados :
  writes endereco setEndereco (pontuarEndereco dados).
Proof. step_writes pontuarEndereco. Qed.

(** The five steps in sequence: each field of the final breakdown is
    what its step alone writes, and the total is their sum. *)
Lemma passos_detalhes dados :
  let c := pontuarEndereco dados
             (pontuarAtividade dados
                (pontuarCapital dados
                   (pontuarTempo Date_parse hoje dados
                      (pontuarSituacao dados inicio)))) in
  c_detalhes c =
    {| situacao := situacao (c_detalhes (pontuarSituacao dados inicio));
       tempo_atividade := tempo_atividade (c_detalhes (pontuarTempo Date_parse hoje dados inicio));
       capital_social := capital_social (c_detalhes (pontuarCapital dados inicio));
       atividade_principal := atividade_principal (c_detalhes (pontuarAtividade dados inicio));
       endereco := endereco (c_detalhes (pontuarEndereco dados inicio)) |} /\
  pontuacao c = somaDetalhes (c_detalhes c).
Proof.
  destruct (pontuarSituacao_writes dados inicio eq_refl) as [P1 D1].
  set (c1 := pontuarSituacao dados inicio) in *.
  destruct (pontuarTempo_writes dados c1) as [P2 D2]; [rewrite D1; reflexivity|].
  set (c2 := pontuarTempo Date_parse hoje dados c1) in *.
  destruct (pontuarCapital_writes dados c2) as [P3 D3]; [rewrite D2; simpl; rewrite D1; reflexivity|].
  set (c3 := pontuarCapital dados c2) in *.
  destruct (pontuarAtividade_writes dados c3) as [P4 D4]; [rewrite D3; simpl; rewrite D2; simpl; rewrite D1; reflexivity|].
  set (c4 := pontuarAtividade dados c3) in *.
  destruct (pontuarEndereco_writes dados c4) as [P5 D5]; [rewrite D4; simpl; rewrite D3; simpl; rewrite D2; simpl; rewrite D1; reflexivity|].
  simpl. rewrite P5, P4, P3, P2, P1, D5. simpl. rewrite D4. simpl. rewrite D3. simpl.
  rewrite D2. simpl. rewrite D1. simpl.
  split; [reflexivity | unfold somaDetalhes; simpl; lia].
Qed.

Lemma calcular_success dados :
  Consulta.success dados = true ->
  let r := calcularScoreEstimado Date_parse hoje (Some dados) in
  detalhes r =
    {| situacao := situacao (c_detalhes (pontuarSituacao dados inicio));
       tempo_atividade := tempo_atividade (c_detalhes (pontuarTempo Date_parse hoje dados inicio));
       capital_social := capital_social (c_detalhes (pontuarCapital dados inicio));
       atividade_principal := atividade_principal (c_detalhes (pontuarAtividade dados inicio));
       endereco := endereco (c_detalhes (pontuarEndereco dados inicio)) |} /\
  score r = somaDetalhes (detalhes r) /\
  is_Some (cor r) /\ is_Some (recomendacao r) /\ calculadoEm r = Some hoje.
Proof.
  intros Hs. unfold calcularScoreEstimado. rewrite Hs. simpl.
  destruct (passos_detalhes dados) as [HD HP].
  destruct (classificar _) as [cl co]. simpl.
  repeat split; eauto.
Qed.

Lemma truthy_true s : s <> "" -> truthy s = true.
Proof. destruct s; [congruence | reflexivity]. Qed.

Lemma geq_Qle q n : JS.geq (Some q) n = true <-> (inject_Z n <= q)%Q.
Proof. apply Qle_bool_iff. Qed.

Lemma gt_Qlt q n : JS.gt (Some q) n = true <-> (inject_Z n < q)%Q.
Proof.
  unfold JS.gt. rewrite negb_true_iff, <- not_true_iff_false, Qle_bool_iff.
  split; [apply Qnot_le_lt | apply Qlt_not_le].
Qed.

(** The status table of the code. *)
Lemma situacao_table dados :
  Consulta.success dados = true ->
  Consulta.situacao dados <> "" ->
  situacao (detalhes (calcularScoreEstimado Date_parse hoje (Some dados))) =
    let texto := JS.toLowerCase (Consulta.situacao dados) in
    if JS.includes texto "ativa" then 30
    else if JS.includes texto "suspensa" then 10
    else 0.
Proof.
  intros Hs Ht. destruct (calcular_success dados Hs) as [-> _]. simpl.
  unfold pontuarSituacao. rewrite (truthy_true _ Ht). branches; reflexivity.
Qed.

(** The longevity table of the code. *)
Lemma tempo_table dados :
  Consulta.success dados = true ->
  Consulta.dataAbertura dados <> "" ->
  tempo_atividade (detalhes (calcularScoreEstimado Date_parse hoje (Some dados))) =
    let anos := anosDeAtividade hoje (Date_parse (Consulta.dataAbertura dados)) in
    if JS.geq anos 5 then 25
    else if JS.geq anos 2 then 15
    else if JS.geq anos 1 then 8
    else 0.
Proof.
  intros Hs Ht. destruct (calcular_success dados Hs) as [-> _]. simpl.
  unfold pontuarTempo. rewrite (truthy_true _ Ht). branches; reflexivity.
Qed.





End ScoreFacts.


(** ** The properties at concrete inputs *)

Section Exemplos.
Import TempLinks Consulta Score.

(** The amount is read with the dots dropped and the first comma as the
    decimal point; what is neither digit nor comma is not looked at. *)
Lemma parseCapital_keep s :
  parseCapital (JS.keep (fun ch => JS.isDigit ch || Ascii.eqb ch ",") s) = parseCapital s.
Proof.
  unfold parseCapital. f_equal. f_equal.
  induction s as [|c s IH]; [reflexivity|]. simpl.
  destruct (JS.isDigit c || Ascii.eqb c ",") eqn:Hc; [simpl; rewrite Hc, IH; reflexivity | exact IH].
Qed.

Example parseCapital_exemplos :
  parseCapital "1.000.000,00" = Some (JS.toDouble 1000000) /\
  parseCapital "R$ 12.345,50" = Some (JS.toDouble 12345.5) /\
  parseCapital "1000000.00" = Some (JS.toDouble 100000000) /\
  parseCapital "0,00" = Some 0%Q /\
  parseCapital "nada consta" = None /\
  (JS.toDouble 1000000 == 1000000)%Q /\ (JS.toDouble 12345.5 == 12345.5)%Q /\
  (JS.toDouble 0.1 == 3602879701896397 # 36028797018963968)%Q.
Proof. vm_compute. repeat split. Qed.

(** The scenario of the specification: the first provider answers with
    a legal name and the status ATIVA; the lookup succeeds on it and the
    status points of that profile are 30. *)
Example cenario_acme :
  let r := consultarCNPJ redeAcme 1735689600000 "11.222.333/0001-81" in
  success (fst r) = true /\ razaoSocial (fst r) = "ACME LTDA" /\
  source (fst r) = Some "BrasilAPI" /\
  snd r = ["https://brasilapi.com.br/api/cnpj/v1/11222333000181"] /\
  Score.situacao (detalhes (calcularScoreEstimado isoDate 1735689600000 (Some (fst r)))) = 30.
Proof. vm_compute. repeat split. Qed.

(** The registry scenarios of the specification.  A link just issued
    validates with no download counted; after five validated downloads
    the sixth validation is refused for the limit and deactivates the
    link; a link issued with no time to live is refused as expired one
    millisecond later. *)
Example cenarios_do_registro :
  let rnd := ["001"; "035"; "069"; "103"; "137"; "171"; "205"; "239"]%char in
  let id := "0123456789ABCDEF" in
  let download now := [Validate now id; Consume id] in
  let issued := snd (generateTempLink rnd 0 None None None ∅) in
  fst (generateTempLink rnd 0 None None None ∅) = id /\
  (exists link, fst (validateTempLink 1 id issued) = Valid link /\ downloads link = 0) /\
  fst (validateTempLink 60
         id (run (concat (map download [10; 20; 30; 40; 50])) issued))
    = Invalid "Limite de downloads atingido" /\
  active <$> snd (validateTempLink 60
                    id (run (concat (map download [10; 20; 30; 40; 50])) issued)) !! id
    = Some false /\
  fst (validateTempLink 1 id (snd (generateTempLink rnd 0 None None (Some 0) ∅)))
    = Invalid "Link expirado".
Proof. vm_compute. repeat split. eexists. split; reflexivity. Qed.

(** C1, as stated, fails: a link issued with the default budget of
    five and consumed six times, with no validation in between, holds a
    record with [downloads = 6] and [maxDownloads = 5]. *)
Lemma consume_alone_exceeds_budget :
  ~ within_budget
      (run (Issue ["001"; "035"; "069"; "103"; "137"; "171"; "205"; "239"]%char
                  0 None (Some 5) (Some 48)
            :: repeat (Consume "0123456789ABCDEF") 6) ∅).
Proof.
  intros H.
  assert (Hl : run (Issue ["001"; "035"; "069"; "103"; "137"; "171"; "205"; "239"]%char
                          0 None (Some 5) (Some 48)
                    :: repeat (Consume "0123456789ABCDEF") 6) ∅
               !! "0123456789ABCDEF"
             = Some {| files := []; createdAt := 0; downloads := 6; maxDownloads := 5;
                       expiresAt := 172800000; active := true |})
    by (vm_compute; reflexivity).
  apply H in Hl. simpl in Hl. lia.
Qed.

(** The guarded discipline at work: issue with a budget of one,
    validate, consume, validate again (now refused). *)
Lemma guarded_within_budget_witness :
  let ops := [ Issue ["001"; "035"; "069"; "103"; "137"; "171"; "205"; "239"]%char
                     0 None (Some 1) (Some 48);
               Validate 1000 "0123456789ABCDEF";
               Consume "0123456789ABCDEF";
               Validate 2000 "0123456789ABCDEF" ] in
  guarded None ∅ ops = true /\ forall k, within_budget (run (take k ops) ∅).
Proof.
  intros ops. split; [vm_compute; reflexivity|].
  apply (guarded_within_budget ops). vm_compute. reflexivity.
Defined.


Lemma consultarCNPJ_validacao_witness :
  String.length (JS.keep JS.isDigit "123.456") <> 14%nat /\
  source (fst (consultarCNPJ (fun _ => Thrown "offline") 0 "123.456")) = Some "validacao" /\
  snd (consultarCNPJ (fun _ => Thrown "offline") 0 "123.456") = [].
Proof.
  split; [simpl; lia|].
  apply (consultarCNPJ_validacao (fun _ => Thrown "offline") 0 "123.456"). simpl. lia.
Defined.


Lemma cnpj_ws_never_source_witness :
  success (fst (consultarCNPJ redeExemplo 7 "11.222.333/0001-81")) = true /\
  source (fst (consultarCNPJ redeExemplo 7 "11.222.333/0001-81")) <> Some "CNPJ.ws".
Proof.
  split; [reflexivity|].
  apply (cnpj_ws_never_source redeExemplo 7). reflexivity.
Defined.



(** C2 at the input where the code and the claim part: a status text
    that contains the keyword for suspended scores 10 status points in
    the code, where the claim (and the dashboard documentation) say 15. *)
Theorem situacao_suspensa_scores_10 :
  Score.situacao
    (detalhes (calcularScoreEstimado isoDate 1735689600000
                 (Some (perfil "SUSPENSA" "2018-01-01" "R$ 150.000,00")))) = 10.
Proof. vm_compute. reflexivity. Qed.

(** C3 at inputs where the code and the claim part.  On 2025-01-01 a
    company founded 2018-01-01 (2557 days, 7 years) gets 25 longevity
    points, where the claim says 20; one founded 2023-07-01 (550 days)
    gets 8 and one founded 2024-07-01 (184 days) gets 0, where the
    claim says 5 for both. *)
Theorem tempo_atividade_bands_of_the_code :
  tempo_atividade
    (detalhes (calcularScoreEstimado isoDate 1735689600000
                 (Some (perfil "ATIVA" "2018-01-01" "")))) = 25 /\
  tempo_atividade
    (detalhes (calcularScoreEstimado isoDate 1735689600000
                 (Some (perfil "ATIVA" "2023-07-01" "")))) = 8 /\
  tempo_atividade
    (detalhes (calcularScoreEstimado isoDate 1735689600000
                 (Some (perfil "ATIVA" "2024-07-01" "")))) = 0.
Proof. vm_compute. repeat split. Qed.

End Exemplos.


(** * Further properties of the code *)

(** ** Text: classes of characters, substrings, code units *)

Section TextoFacts.
Import Texto.

Lemma keep_app p a b : JS.keep p (a ++ b) = JS.keep p a ++ JS.keep p b.
Proof. induction a as [|c a IH]; simpl; [done|]. destruct (p c); simpl; by rewrite IH. Qed.

Lemma keep_todos p s : todos p s = true -> JS.keep p s = s.
Proof.
  induction s as [|c s IH]; simpl; [done|].
  intros [-> Hs]%andb_true_iff. by rewrite IH.
Qed.

Lemma todos_keep p s : todos p (JS.keep p s) = true.
Proof.
  induction s as [|c s IH]; simpl; [done|].
  destruct (p c) eqn:Hc; simpl; [by rewrite Hc|done].
Qed.

Lemma todos_app p a b : todos p (a ++ b) = todos p a && todos p b.
Proof. induction a as [|c a IH]; simpl; [done|]. by rewrite IH, andb_assoc. Qed.

Lemma todos_substring p n m s : todos p s = true -> todos p (substring n m s) = true.
Proof.
  revert n m. induction s as [|c s IH]; intros n m; simpl.
  - by destruct n, m.
  - intros [Hc Hs]%andb_true_iff. destruct n as [|n].
    + destruct m as [|m]; simpl; [done|]. by rewrite Hc, IH.
    + by apply IH.
Qed.

Lemma todos_impl (p q : ascii -> bool) s :
  (forall c, p c = true -> q c = true) -> todos p s = true -> todos q s = true.
Proof.
  intros Hpq. induction s as [|c s IH]; simpl; [done|].
  intros [Hc Hs]%andb_true_iff. by rewrite (Hpq _ Hc), IH.
Qed.

Lemma substring_full s : substring 0 (String.length s) s = s.
Proof. induction s as [|c s IH]; simpl; [done|]. by rewrite IH. Qed.

Lemma substring_short n s : (String.length s <= n)%nat -> substring 0 n s = s.
Proof.
  revert n. induction s as [|c s IH]; intros n Hn; simpl; [by destruct n|].
  destruct n as [|n]; simpl in *; [lia|]. rewrite IH; [done | lia].
Qed.

Lemma substring_length n s :
  String.length (substring 0 n s) = Nat.min n (String.length s).
Proof.
  revert n. induction s as [|c s IH]; intros [|n]; simpl; try done. by rewrite IH.
Qed.

Lemma sub_from a b s :
  (a <= b)%nat -> MaskUtils.from a s = MaskUtils.sub a b s ++ MaskUtils.from b s.
Proof.
  unfold MaskUtils.from, MaskUtils.sub. revert a b.
  induction s as [|c s IH]; intros a b Hab.
  - simpl. destruct a, b; simpl; try done; by destruct (_ - _)%nat.
  - destruct a as [|a].
    + rewrite Nat.sub_0_r, substring_full. destruct b as [|b]; simpl; [by rewrite substring_full|].
      specialize (IH 0%nat b ltac:(lia)).
      rewrite !Nat.sub_0_r, substring_full in IH.
      change (String c s = String c (substring 0 b s ++ substring b (String.length s - b) s)).
      by rewrite <- IH.
    + destruct b as [|b]; [lia|]. simpl. apply IH. lia.
Qed.

Lemma sub0_from b s : MaskUtils.sub 0 b s ++ MaskUtils.from b s = s.
Proof.
  rewrite <- (sub_from 0 b s) by lia. unfold MaskUtils.from.
  by rewrite Nat.sub_0_r, substring_full.
Qed.

Lemma from_length a s : String.length (MaskUtils.from a s) = (String.length s - a)%nat.
Proof.
  unfold MaskUtils.from. revert a. induction s as [|c s IH]; intros a; simpl.
  - by destruct a.
  - destruct a as [|a]; simpl; [by rewrite substring_full|]. apply IH.
Qed.

Lemma string_length_app a b : String.length (a ++ b) = (String.length a + String.length b)%nat.
Proof. induction a as [|c a IH]; simpl; [done|]. by rewrite IH. Qed.

Lemma todos_string_of_list p l :
  todos p (string_of_list_ascii l) = forallb p l.
Proof. induction l as [|c l IH]; simpl; [done|]. by rewrite IH. Qed.

Lemma length_string_of_list l : String.length (string_of_list_ascii l) = length l.
Proof. induction l as [|c l IH]; simpl; [done|]. by rewrite IH. Qed.

Lemma pretty_N_go_todos p x : forall s,
  (forall n, p (pretty_N_char n) = true) ->
  todos p s = true -> todos p (pretty_N_go x s) = true.
Proof.
  induction (N.lt_wf_0 x) as [x _ IH]; intros s Hp Hs.
  assert (x = 0 \/ 0 < x)%N as [->|?] by lia.
  - by rewrite pretty_N_go_0.
  - rewrite pretty_N_go_step by done. apply IH; [by apply N.div_lt | done |].
    simpl. by rewrite Hp, Hs.
Qed.

Lemma pretty_Z_todos (p : ascii -> bool) (z : Z) :
  (forall n, p (pretty_N_char n) = true) -> p "-"%char = true ->
  todos p (pretty z) = true.
Proof.
  intros Hp Hm.
  assert (HN : forall x : positive, todos p (pretty x) = true).
  { intros x. unfold pretty, pretty_positive, pretty, pretty_N.
    case_decide; [done|]. by apply pretty_N_go_todos. }
  destruct z as [|x|x]; unfold pretty, pretty_Z; [|apply HN|].
  - pose proof (Hp 0%N) as H0. simpl in *. by rewrite H0.
  - simpl. rewrite Hm. apply HN.
Qed.

(** ASCII text is its own code units. *)
Lemma units_ascii s :
  todos (fun c => (N_of_ascii c <? 128)%N) s = true ->
  units s = map N_of_ascii (list_ascii_of_string s).
Proof.
  unfold units, codePoints.
  induction s as [|c s IH]; simpl; [done|].
  intros [Hc Hs]%andb_true_iff. unfold comeco. rewrite Hc. simpl.
  apply N.ltb_lt in Hc.
  unfold unidades at 1.
  destruct (N.ltb_spec (N_of_ascii c) 65536); [|lia]. simpl. by rewrite IH.
Qed.

Lemma ehDigito_naoEspaco u : ehDigito u = true -> isSpace u = false.
Proof.
  unfold ehDigito. rewrite andb_true_iff, !N.leb_le. intros [? ?].
  apply not_true_iff_false. unfold isSpace.
  rewrite !orb_true_iff, !andb_true_iff, !N.leb_le, !N.eqb_eq. lia.
Qed.

Lemma filter_trimStart (p : N -> bool) l :
  (forall u, p u = true -> isSpace u = false) ->
  List.filter p (trimStart l) = List.filter p l.
Proof.
  intros Hp. induction l as [|u l IH]; [done|]. cbn [trimStart].
  destruct (isSpace u) eqn:Hu; [|done]. cbn [List.filter].
  destruct (p u) eqn:Hpu; [|done]. apply Hp in Hpu. congruence.
Qed.

Lemma filter_length_rev (p : N -> bool) l :
  length (List.filter p (rev l)) = length (List.filter p l).
Proof.
  induction l as [|u l IH]; [done|]. simpl.
  rewrite List.filter_app, length_app, IH. simpl. destruct (p u); simpl; lia.
Qed.

Lemma filter_length_trim (p : N -> bool) l :
  (forall u, p u = true -> isSpace u = false) ->
  length (List.filter p (trim l)) = length (List.filter p l).
Proof.
  intros Hp. unfold trim.
  by rewrite filter_length_rev, (filter_trimStart p _ Hp), filter_length_rev,
             (filter_trimStart p _ Hp).
Qed.

Lemma unidades_digito cp :
  ehDigito cp = true -> unidades cp = [cp].
Proof.
  unfold ehDigito, unidades. rewrite andb_true_iff, !N.leb_le. intros [? ?].
  destruct (N.ltb_spec cp 65536); [done | lia].
Qed.

Lemma digitos_cons cp l :
  (length (List.filter ehDigito (concat (map unidades l)))
   <= length (List.filter ehDigito (concat (map unidades (cp :: l)))))%nat.
Proof. simpl. rewrite List.filter_app, length_app. lia. Qed.

Lemma digitos_cons_digito cp l :
  ehDigito cp = true ->
  length (List.filter ehDigito (concat (map unidades (cp :: l))))
  = S (length (List.filter ehDigito (concat (map unidades l)))).
Proof. intros H. simpl. rewrite (unidades_digito _ H). simpl. by rewrite H. Qed.

Lemma comeco_digito b : ehDigito b = true -> comeco b = (Some b, 0%nat, 0%N).
Proof.
  unfold ehDigito, comeco. rewrite andb_true_iff, !N.leb_le. intros [? ?].
  destruct (N.ltb_spec b 128); [done | lia].
Qed.

Lemma digitos_decodificar s : forall pend acc,
  (String.length (JS.keep JS.isDigit s)
   <= length (List.filter ehDigito (concat (map unidades (decodificar pend acc s)))))%nat.
Proof.
  induction s as [|c s IH]; intros pend acc; [simpl; lia|].
  cbn [decodificar JS.keep].
  change (JS.isDigit c) with (ehDigito (N_of_ascii c)).
  set (b := N_of_ascii c).
  destruct (ehDigito b) eqn:Hd.
  - rewrite (comeco_digito _ Hd).
    assert (Hc : ((128 <=? b) && (b <? 192))%N = false).
    { unfold ehDigito in Hd. apply andb_true_iff in Hd as [? ?%N.leb_le].
      apply andb_false_iff. left. apply N.leb_gt. lia. }
    destruct pend as [|k]; [|rewrite Hc].
    + rewrite (digitos_cons_digito _ _ Hd). simpl. specialize (IH 0%nat 0%N). lia.
    + etrans; [|apply digitos_cons]. rewrite (digitos_cons_digito _ _ Hd). simpl.
      specialize (IH 0%nat 0%N). lia.
  - assert (Hco :
              (String.length (JS.keep JS.isDigit s)
               <= length (List.filter ehDigito (concat (map unidades
                    (match comeco b with
                     | (Some cp, _, _) => cp :: decodificar 0 0 s
                     | (None, p, a) => decodificar p a s
                     end)))))%nat).
    { destruct (comeco b) as [[[cp|] p] a]; [|apply IH].
      etrans; [apply (IH 0%nat 0%N) | apply digitos_cons]. }
    destruct pend as [|k]; [apply Hco|].
    destruct ((128 <=? b) && (b <? 192))%N.
    + destruct k; [etrans; [apply (IH 0%nat 0%N) | apply digitos_cons] | apply IH].
    + etrans; [apply Hco | apply digitos_cons].
Qed.

Lemma digitos_length16 s :
  (String.length (JS.keep JS.isDigit s) <= length16 s)%nat.
Proof.
  etrans; [apply (digitos_decodificar s 0 0)|]. apply List.filter_length_le.
Qed.

Lemma digitos_trimLength s :
  (String.length (JS.keep JS.isDigit s) <= trimLength s)%nat.
Proof.
  etrans; [apply (digitos_decodificar s 0 0)|]. unfold trimLength.
  change (concat (map unidades (decodificar 0 0 s))) with (units s).
  rewrite <- (filter_length_trim ehDigito (units s) ehDigito_naoEspaco).
  apply List.filter_length_le.
Qed.

Lemma test_Plus p r l :
  test (Plus p :: r) l = true <->
  exists a b, a <> [] /\ l = (a ++ b)%list /\ forallb p a = true /\ test r b = true.
Proof.
  induction l as [|u t IH].
  - split; [done|]. intros (a & b & Ha & Hl & _). destruct a; [done | discriminate].
  - change (test (Plus p :: r) (u :: t)) with (p u && (test r t || test (Plus p :: r) t)).
    rewrite andb_true_iff, orb_true_iff, IH. split.
    + intros [Hu [Ht | (a & b & Ha & -> & Hpa & Hb)]].
      * exists [u], t. simpl. rewrite Hu. auto.
      * exists (u :: a), b. simpl. rewrite Hu. auto.
    + intros (a & b & Ha & Hl & Hpa & Hb). destruct a as [|u' a]; [done|].
      simpl in Hl. injection Hl as <- ->. simpl in Hpa.
      apply andb_true_iff in Hpa as [Hu Hpa].
      split; [done|]. destruct a as [|u'' a]; [left; done|].
      right. exists (u'' :: a), b. auto.
Qed.

Lemma test_One p r l :
  test (One p :: r) l = true <-> exists u t, l = u :: t /\ p u = true /\ test r t = true.
Proof.
  destruct l as [|u t]; simpl.
  - split; [done | intros (? & ? & ? & _); done].
  - rewrite andb_true_iff. split; [eauto | intros (? & ? & [= <- <-] & ?); done].
Qed.

Lemma test_nil l : test [] l = true <-> l = [].
Proof. by destruct l. Qed.

Lemma emailRegex_shape l :
  test emailRegex l = true <->
  exists a b c,
    l = (a ++ 64%N :: b ++ 46%N :: c)%list /\ a <> [] /\ b <> [] /\ c <> [] /\
    forallb naoEspacoNemArroba a = true /\ forallb naoEspacoNemArroba b = true /\
    forallb naoEspacoNemArroba c = true.
Proof.
  unfold emailRegex. rewrite test_Plus. split.
  - intros (a & r1 & Ha & -> & Hpa & (u & r2 & -> & ->%N.eqb_eq & H2)%test_One).
    apply test_Plus in H2 as (b & r3 & Hb & -> & Hpb & (v & r4 & -> & ->%N.eqb_eq & H4)%test_One).
    apply test_Plus in H4 as (c & r5 & Hc & -> & Hpc & ->%test_nil).
    exists a, b, c. rewrite app_nil_r. auto 10.
  - intros (a & b & c & -> & Ha & Hb & Hc & Hpa & Hpb & Hpc).
    exists a, (64%N :: b ++ 46%N :: c)%list. repeat split; auto.
    apply test_One. exists 64%N, (b ++ 46%N :: c)%list. repeat split.
    apply test_Plus. exists b, (46%N :: c)%list. repeat split; auto.
    apply test_One. exists 46%N, c. repeat split.
    apply test_Plus. exists c, []. rewrite app_nil_r. repeat split; auto.
Qed.

End TextoFacts.

(** ** The lookup: what a result can be *)

Section LookupFacts.
Import Consulta.

Variable fetch : string -> Response.
Variable now : Z.

Lemma percorrer_source d :
  Consulta.source (fst (Consulta.percorrer fetch now (Consulta.apis d))) <> Some "validacao" /\
  snd (Consulta.percorrer fetch now (Consulta.apis d)) <> [].
Proof.
  unfold Consulta.apis. simpl.
  repeat match goal with
         | |- context [Consulta.tentar ?r ?a ?n] =>
             let H := fresh "H" in
             destruct (Consulta.tentar r a n) eqn:H;
             [apply tentar_Some in H as (? & ? & _ & _ & _ & _ & _ & _ & H & _);
              simpl in *; rewrite ?H; split; done|]
         end.
  simpl. split; done.
Qed.

Lemma consultarCNPJ_validacao_iff cnpj :
  Consulta.source (fst (Consulta.consultarCNPJ fetch now cnpj)) = Some "validacao" <->
  String.length (JS.keep JS.isDigit cnpj) <> 14%nat.
Proof.
  unfold Consulta.consultarCNPJ.
  destruct (Nat.eqb_spec (String.length (JS.keep JS.isDigit cnpj)) 14) as [He|He]; simpl.
  - split; [|done]. intros H. by apply (percorrer_source (JS.keep JS.isDigit cnpj)) in H.
  - done.
Qed.

Lemma percorrer_log_head api rest :
  exists log, snd (Consulta.percorrer fetch now (api :: rest)) = Consulta.api_url api :: log.
Proof.
  simpl. destruct (Consulta.tentar _ _ _); [by eexists|].
  destruct (Consulta.percorrer fetch now rest). by eexists.
Qed.

Lemma percorrer_failure l :
  success (fst (percorrer fetch now l)) = false ->
  percorrer fetch now l =
    (falha "Não foi possível consultar o CNPJ no momento. Todas as APIs estão indisponíveis."
           (Some "todas_apis_falharam") (Some now),
     map api_url l).
Proof.
  induction l as [|a l IH]; simpl; [done|].
  destruct (tentar (fetch (api_url a)) a now) as [dados|] eqn:Ha; simpl.
  - apply tentar_Some in Ha as (_ & _ & _ & _ & _ & _ & _ & Hs & _). congruence.
  - destruct (percorrer fetch now l) as [dados log]. simpl in *.
    intros Hs. by injection (IH Hs) as -> ->.
Qed.

Lemma mapear_error data apiName : error (mapear data apiName) = None.
Proof. unfold mapear. by repeat case_match. Qed.

(** X12.  What a lookup can return.  A success has a legal name, no
    error, the time of the lookup, came from at least one request, and
    is flagged official exactly when its source is BrasilAPI.  A
    failure is one of two objects that carry no company data: the
    validation failure, with no request made, or the failure of all
    providers, after each of the three was asked once in order. *)
Theorem lookup_result_invariant cnpj :
  let r := consultarCNPJ fetch now cnpj in
  (success (fst r) = true ->
     razaoSocial (fst r) <> "" /\ error (fst r) = None /\
     consultedAt (fst r) = Some now /\
     (official (fst r) = Some true <-> source (fst r) = Some "BrasilAPI") /\
     snd r <> []) /\
  (success (fst r) = false ->
     (fst r = falha "CNPJ deve ter 14 dígitos" (Some "validacao") None /\ snd r = []) \/
     (fst r = falha "Não foi possível consultar o CNPJ no momento. Todas as APIs estão indisponíveis."
                    (Some "todas_apis_falharam") (Some now) /\
      snd r = map api_url (apis (JS.keep JS.isDigit cnpj)))).
Proof.
  intros r. subst r. unfold consultarCNPJ.
  destruct (String.length (JS.keep JS.isDigit cnpj) =? 14)%nat; simpl negb; cbv iota.
  - set (d := JS.keep JS.isDigit cnpj). split.
    + intros Hs. pose proof (percorrer_source d) as [_ Hlog].
      apply percorrer_success in Hs as (api & Hin & Ha).
      apply tentar_Some in Ha as (st & data & _ & _ & _ & Hr & Hd & _ & Hsrc & Hoff & Ht).
      rewrite Hsrc, Hoff, Ht, Hd. cbn [razaoSocial error anotar]. rewrite mapear_error.
      repeat split; auto;
        simpl in Hin; destruct Hin as [<- | [<- | [<- | []]]]; simpl; congruence.
    + intros Hs. right. by rewrite (percorrer_failure _ Hs).
  - split; [done|]. intros _. left. done.
Qed.

End LookupFacts.

(** ** The input masks *)

Section MaskFacts.
Import Texto MaskUtils.

Lemma limited_digits n v : todos JS.isDigit (sub 0 n (removeMask v)) = true.
Proof. apply todos_substring, todos_keep. Qed.

Lemma limited_length n v : (String.length (sub 0 n (removeMask v)) <= n)%nat.
Proof. unfold sub. rewrite Nat.sub_0_r, substring_length. lia. Qed.

Lemma keep_sub a b s : todos JS.isDigit s = true -> JS.keep JS.isDigit (sub a b s) = sub a b s.
Proof. intros. by apply keep_todos, todos_substring. Qed.

Lemma keep_from a s : todos JS.isDigit s = true -> JS.keep JS.isDigit (from a s) = from a s.
Proof. intros. by apply keep_todos, todos_substring. Qed.

Ltac unmask L HL :=
  unfold removeMask; repeat (rewrite keep_app; simpl);
  rewrite ?(keep_sub _ _ L HL), ?(keep_from _ L HL).

Lemma removeMask_cnpjMask v : removeMask (cnpjMask v) = sub 0 14 (removeMask v).
Proof.
  unfold cnpjMask.
  pose proof (limited_digits 14 v) as HL.
  set (L := sub 0 14 (removeMask v)) in *.
  repeat case_match.
  - by apply keep_todos.
  - unmask L HL. apply sub0_from.
  - unmask L HL. rewrite <- (sub_from 2 5) by lia. apply sub0_from.
  - unmask L HL. rewrite <- (sub_from 5 8), <- (sub_from 2 5) by lia. apply sub0_from.
  - unmask L HL.
    rewrite <- (sub_from 8 12), <- (sub_from 5 8), <- (sub_from 2 5) by lia. apply sub0_from.
Qed.

Lemma removeMask_phoneMask v : removeMask (phoneMask v) = sub 0 11 (removeMask v).
Proof.
  unfold phoneMask.
  pose proof (limited_digits 11 v) as HL.
  set (L := sub 0 11 (removeMask v)) in *.
  repeat case_match.
  - by apply keep_todos.
  - unmask L HL. apply sub0_from.
  - unmask L HL. rewrite <- (sub_from 2 7) by lia. apply sub0_from.
Qed.

Lemma sub_sub n v : sub 0 n (sub 0 n (removeMask v)) = sub 0 n (removeMask v).
Proof. unfold sub at 1. rewrite Nat.sub_0_r. apply substring_short, limited_length. Qed.

(** X25.  The CNPJ mask keeps the first 14 digits of its input and
    nothing else ([removeMask] gives them back), and masking a masked
    value changes nothing. *)
Theorem cnpjMask_roundtrip v :
  removeMask (cnpjMask v) = sub 0 14 (removeMask v) /\
  cnpjMask (cnpjMask v) = cnpjMask v.
Proof.
  split; [apply removeMask_cnpjMask|].
  unfold cnpjMask at 1. rewrite removeMask_cnpjMask, sub_sub. reflexivity.
Qed.

(** X26.  The phone mask keeps the first 11 digits of its input and
    nothing else, and masking a masked value changes nothing. *)
Theorem phoneMask_roundtrip v :
  removeMask (phoneMask v) = sub 0 11 (removeMask v) /\
  phoneMask (phoneMask v) = phoneMask v.
Proof.
  split; [apply removeMask_phoneMask|].
  unfold phoneMask at 1. rewrite removeMask_phoneMask, sub_sub. reflexivity.
Qed.

Lemma sub_length a b s :
  (a <= b)%nat -> (b <= String.length s)%nat -> String.length (sub a b s) = (b - a)%nat.
Proof.
  unfold sub. revert a b. induction s as [|c s IH]; intros a b Hab Hb; simpl in *.
  - assert (b = 0)%nat by lia. assert (a = 0)%nat by lia. by subst.
  - destruct a as [|a].
    + rewrite Nat.sub_0_r. destruct b as [|b]; simpl; [done|].
      specialize (IH 0%nat b ltac:(lia) ltac:(lia)). rewrite Nat.sub_0_r in IH. by rewrite IH.
    + destruct b as [|b]; [lia|]. simpl. apply IH; lia.
Qed.

(** X27.  What the page sends is what the server accepts: for an input
    with at least 14 digits the masked CNPJ has 18 characters, passes
    the validation of the page, and its lookup on the server goes to
    the providers with exactly the first 14 digits. *)
Theorem masked_cnpj_accepted v :
  (14 <= String.length (removeMask v))%nat ->
  String.length (cnpjMask v) = 18%nat /\
  validateCNPJ (cnpjMask v) = true /\
  forall fetch now,
    Consulta.consultarCNPJ fetch now (cnpjMask v)
    = Consulta.percorrer fetch now (Consulta.apis (sub 0 14 (removeMask v))).
Proof.
  intros Hlen.
  pose proof (removeMask_cnpjMask v) as Hr.
  assert (HL : String.length (sub 0 14 (removeMask v)) = 14%nat).
  { unfold sub. rewrite Nat.sub_0_r, substring_length. lia. }
  split; [|split].
  - unfold cnpjMask. set (L := sub 0 14 (removeMask v)) in *. rewrite HL. simpl.
    repeat (rewrite string_length_app; simpl).
    rewrite !sub_length, from_length by lia. lia.
  - unfold validateCNPJ. rewrite Hr, HL. done.
  - intros fetch now. unfold Consulta.consultarCNPJ.
    unfold removeMask in *. rewrite Hr, HL. reflexivity.
Qed.

(** X28.  After masking, validation on the page only asks whether there
    were enough digits: a masked CNPJ validates exactly when the input
    had at least 14 digits, a masked phone exactly when it had at least
    10. *)
Theorem masked_values_validate v :
  validateCNPJ (cnpjMask v) = (14 <=? String.length (removeMask v))%nat /\
  validatePhone (phoneMask v) = (10 <=? String.length (removeMask v))%nat.
Proof.
  pose proof (removeMask_cnpjMask v) as Hc. pose proof (removeMask_phoneMask v) as Hp.
  unfold validateCNPJ, validatePhone. rewrite Hc, Hp. unfold sub.
  rewrite !Nat.sub_0_r, !substring_length.
  split.
  - destruct (Nat.leb_spec 14 (String.length (removeMask v))); [apply Nat.eqb_eq | apply Nat.eqb_neq]; lia.
  - destruct (Nat.leb_spec 10 (String.length (removeMask v))).
    + apply orb_true_iff. destruct (decide (String.length (removeMask v) = 10)%nat).
      * left. apply Nat.eqb_eq. lia.
      * right. apply Nat.eqb_eq. lia.
    + apply orb_false_iff. split; apply Nat.eqb_neq; lia.
Qed.

End MaskFacts.

(** ** Stored names and refused uploads *)

Section UploadFacts.
Import Texto Upload.

Lemma permitido_ascii u : permitido u = true -> (u < 128)%N.
Proof.
  unfold permitido. rewrite !orb_true_iff, !andb_true_iff, !N.leb_le, !N.eqb_eq. lia.
Qed.

Lemma seguro_de_unit u :
  seguro (if permitido u then ascii_of_N u else "_"%char) = true.
Proof.
  unfold seguro. destruct (permitido u) eqn:Hu; [|done].
  rewrite N_ascii_embedding by (apply permitido_ascii in Hu; lia). by rewrite Hu.
Qed.

Lemma sanitizar_seguro name : todos seguro (sanitizar name) = true.
Proof.
  unfold sanitizar, replaceOutside. rewrite todos_string_of_list.
  apply forallb_forall. intros c [u [<- _]]%in_map_iff. apply seguro_de_unit.
Qed.

(** X18.  The name multer stores a file under is made of letters,
    digits, dot, hyphen and underscore only (so it has no path
    separator), whatever the name the client sent.  The sanitised part
    has one character per UTF-16 code unit of the original name, and a
    name that is already within the class is kept as it is. *)
Theorem stored_name_safe timestamp name :
  todos seguro (filename timestamp name) = true /\
  String.length (sanitizar name) = length16 name /\
  (todos (fun c => permitido (N_of_ascii c)) name = true -> sanitizar name = name).
Proof.
  split; [|split].
  - unfold filename. rewrite !todos_app, sanitizar_seguro. simpl.
    rewrite pretty_Z_todos; [done| |done].
    intros n. unfold pretty_N_char. by repeat case_match.
  - unfold sanitizar, replaceOutside. by rewrite length_string_of_list, length_map.
  - intros Hs. unfold sanitizar, replaceOutside.
    rewrite units_ascii by (eapply todos_impl; [|exact Hs]; intros c Hc;
                            apply permitido_ascii in Hc; by apply N.ltb_lt).
    rewrite map_map. rewrite <- (string_of_list_ascii_of_string name) at 2. f_equal.
    induction name as [|c s IH]; simpl in *; [done|].
    apply andb_true_iff in Hs as [Hc Hs]. rewrite Hc, ascii_N_embedding. by rewrite IH.
Qed.

(** X19.  The file filter accepts exactly the three listed MIME types.
    The error it raises for any other type is answered by the error
    handler with status 500 and the generic message, not with a 400:
    the handler compares with a message the filter never produces. *)
Theorem rejected_type_gets_500 mimetype :
  (fileFilter mimetype = None <-> In mimetype allowedTypes) /\
  (forall e, fileFilter mimetype = Some e -> tratarErro e = (500, "Erro interno do servidor")).
Proof.
  unfold fileFilter. split.
  - destruct (existsb _ _) eqn:He.
    + split; [intros _|done]. apply existsb_exists in He as (x & Hin & ->%String.eqb_eq). done.
    + split; [done|]. intros Hin.
      assert (existsb (String.eqb mimetype) allowedTypes = true); [|congruence].
      apply existsb_exists. exists mimetype. split; [done | apply String.eqb_refl].
  - intros e. destruct (existsb _ _); [done|]. by intros [= <-].
Qed.

End UploadFacts.

(** ** The WhatsApp link *)

Section WhatsAppFacts.
Import Texto WhatsApp.

Lemma hexDigit_naoReservado n :
  (n < 16)%N -> naoReservado (N_of_ascii (JS.hexDigit n)) = true.
Proof.
  intros Hn. unfold JS.hexDigit.
  destruct (N.ltb_spec n 10); rewrite N_ascii_embedding by lia; unfold naoReservado;
    rewrite !orb_true_iff, !andb_true_iff, !N.leb_le, !N.eqb_eq; lia.
Qed.

Lemma encode_escapado m : todos escapado (encodeURIComponent m) = true.
Proof.
  induction m as [|c m IH]; [done|]. cbn [encodeURIComponent].
  pose proof (N_ascii_bounded c) as Hb.
  destruct (naoReservado (N_of_ascii c)) eqn:Hc; cbn [todos]; rewrite IH.
  - unfold escapado. by rewrite Hc.
  - unfold escapado. rewrite !hexDigit_naoReservado; [done| |].
    + apply N.mod_lt. done.
    + apply N.Div0.div_lt_upper_bound. lia.
Qed.

Lemma prefix_55 a : String.prefix "55" ("55" ++ a) = true.
Proof. by destruct a. Qed.

(** X20.  The WhatsApp link is the fixed prefix, a phone number of
    digits only that starts with 55, the query marker and the encoded
    message; the encoded message holds only unreserved characters and
    percent signs, so no character that would end or split the query.
    Building the link from the number it contains gives the same
    link. *)
Theorem whatsapp_url_shape phone msg :
  exists full,
    generateWhatsAppURL phone msg
      = "https://wa.me/" ++ full ++ "?text=" ++ encodeURIComponent msg /\
    String.prefix "55" full = true /\
    todos JS.isDigit full = true /\
    todos escapado (encodeURIComponent msg) = true /\
    generateWhatsAppURL full msg = generateWhatsAppURL phone msg.
Proof.
  unfold generateWhatsAppURL.
  set (d := JS.keep JS.isDigit phone).
  assert (Hd : todos JS.isDigit d = true) by apply todos_keep.
  exists (if String.prefix "55" d then d else "55" ++ d).
  assert (Hk : forall x, todos JS.isDigit x = true -> JS.keep JS.isDigit x = x).
  { induction x as [|c x IH]; simpl; [done|]. intros [-> Hx]%andb_true_iff. by rewrite IH. }
  destruct (String.prefix "55" d) eqn:Hp.
  - repeat split; auto using encode_escapado. by rewrite (Hk d Hd), Hp.
  - repeat split; auto using encode_escapado, prefix_55.
    rewrite (Hk ("55" ++ d)) by done. by rewrite prefix_55.
Qed.

End WhatsAppFacts.

(** ** The form *)

Section FormularioFacts.
Import Texto Formulario.

Lemma exigir_app c m e : exigir c m e = (e ++ (if c then [m] else []))%list.
Proof. destruct c; simpl; [done | by rewrite app_nil_r]. Qed.

Lemma vazio_curto s n :
  (0 < n)%nat -> vazio s || (trimLength s <? n)%nat = (trimLength s <? n)%nat.
Proof.
  intros Hn. destruct s; [|done]. simpl. symmetry. apply Nat.ltb_lt.
  change (trimLength "") with 0%nat. done.
Qed.

Lemma vazio_email s :
  vazio s || negb (test emailRegex (units s)) = negb (test emailRegex (units s)).
Proof. by destruct s. Qed.

(** The messages of a form, in the order of the checks. *)
Lemma validateFormData_errors data :
  errors (validateFormData data) =
    ((if (trimLength (nomeCompleto data) <? 2)%nat
      then ["Nome completo é obrigatório e deve ter pelo menos 2 caracteres"] else []) ++
     (if negb (test emailRegex (units (email data)))
      then ["Email válido é obrigatório"] else []) ++
     (if (trimLength (telefone data) <? 10)%nat
      then ["Telefone válido é obrigatório"] else []) ++
     (if (trimLength (empresa data) <? 2)%nat
      then ["Nome da empresa é obrigatório"] else []) ++
     (if (trimLength (cnpj data) <? 14)%nat
      then ["CNPJ é obrigatório e deve ser válido"]
      else if negb (String.length (JS.keep JS.isDigit (cnpj data)) =? 14)%nat
           then ["CNPJ deve conter 14 dígitos"] else []) ++
     (if vazio (tempoExistencia data)
      then ["Tempo de existência da empresa é obrigatório"] else []) ++
     (if vazio (faturamentoAnual data)
      then ["Faturamento anual é obrigatório"] else []) ++
     (if vazio (tipoConsultoria data)
      then ["Tipo de consultoria é obrigatório"] else []) ++
     (if (trimLength (mensagem data) <? 5)%nat
      then ["Descrição do projeto é obrigatória e deve ter pelo menos 5 caracteres"]
      else []))%list.
Proof.
  unfold validateFormData. cbn [errors].
  rewrite !vazio_curto by lia. rewrite vazio_email.
  destruct (trimLength (cnpj data) <? 14)%nat;
    rewrite !exigir_app; cbn [app]; rewrite <- ?app_assoc; reflexivity.
Qed.

Lemma length_se (c : bool) (m : string) :
  length (if c then [m] else []) = Nat.b2n c.
Proof. by destruct c. Qed.

Lemma length_se2 (c d : bool) (m m' : string) :
  length (if c then [m] else if d then [m'] else []) = Nat.b2n (c || d).
Proof. by destruct c, d. Qed.

Lemma b2n_0 c : Nat.b2n c = 0%nat <-> c = false.
Proof. by destruct c. Qed.

Lemma vazio_false s : vazio s = false <-> s <> "".
Proof. destruct s; simpl; split; done. Qed.

Lemma form_valid_aux data :
  isValid (validateFormData data) = true <->
  (2 <= trimLength (nomeCompleto data))%nat /\
  test emailRegex (units (email data)) = true /\
  (10 <= trimLength (telefone data))%nat /\
  (2 <= trimLength (empresa data))%nat /\
  String.length (JS.keep JS.isDigit (cnpj data)) = 14%nat /\
  tempoExistencia data <> "" /\ faturamentoAnual data <> "" /\
  tipoConsultoria data <> "" /\
  (5 <= trimLength (mensagem data))%nat.
Proof.
  assert (Hv : isValid (validateFormData data)
               = (length (errors (validateFormData data)) =? 0)%nat) by reflexivity.
  rewrite Hv, Nat.eqb_eq, validateFormData_errors, !length_app, !length_se, length_se2.
  pose proof (digitos_trimLength (cnpj data)) as Hd.
  match goal with
  | |- (Nat.b2n ?b1 + (Nat.b2n ?b2 + (Nat.b2n ?b3 + (Nat.b2n ?b4 + (Nat.b2n ?b5
         + (Nat.b2n ?b6 + (Nat.b2n ?b7 + (Nat.b2n ?b8 + Nat.b2n ?b9))))))))%nat = 0%nat <-> _ =>
      trans (b1 = false /\ b2 = false /\ b3 = false /\ b4 = false /\ b5 = false /\
             b6 = false /\ b7 = false /\ b8 = false /\ b9 = false);
        [rewrite <- !b2n_0; lia|]
  end.
  rewrite negb_false_iff, orb_false_iff, negb_false_iff, !Nat.ltb_ge, Nat.eqb_eq, !vazio_false.
  intuition lia.
Qed.

Lemma In_existsb m l : In m l <-> existsb (String.eqb m) l = true.
Proof.
  rewrite existsb_exists. split.
  - intros H. exists m. split; [done | apply String.eqb_refl].
  - intros (x & Hx & ->%String.eqb_eq). done.
Qed.

Lemma existsb_se (f : string -> bool) (c : bool) m :
  existsb f (if c then [m] else []) = c && f m.
Proof. destruct c; simpl; [apply orb_false_r | done]. Qed.

Lemma existsb_se2 (f : string -> bool) (c d : bool) m m' :
  existsb f (if c then [m] else if d then [m'] else [])
  = (c && f m) || (negb c && (d && f m')).
Proof. destruct c, d; simpl; rewrite ?orb_false_r; done. Qed.

(** Membership of a given message, by the check that pushes it. *)
Ltac mensagem_em_errors :=
  rewrite In_existsb, validateFormData_errors, !existsb_app, !existsb_se, existsb_se2;
  repeat match goal with
         | |- context [String.eqb ?a ?b] =>
             let v := eval vm_compute in (String.eqb a b) in
             change (String.eqb a b) with v
         end;
  rewrite ?andb_false_r, ?andb_true_r, ?orb_false_r, ?orb_false_l.

(** X14.  The form is valid exactly when: the name and the company have
    at least 2 characters after trimming, the phone at least 10 and the
    message at least 5; the e-mail is one at-sign with a part before
    it and, after it, two parts joined by a dot, all three non-empty
    and free of white space and further at-signs; the CNPJ has exactly
    14 digits; and the three selections are not empty.  The tests for
    emptiness of the trimmed fields and the length test of the CNPJ add
    nothing to these. *)
Theorem form_valid_iff data :
  isValid (validateFormData data) = true <->
  (2 <= trimLength (nomeCompleto data))%nat /\
  (exists a b c,
     units (email data) = (a ++ 64%N :: b ++ 46%N :: c)%list /\
     a <> [] /\ b <> [] /\ c <> [] /\
     forallb naoEspacoNemArroba a = true /\ forallb naoEspacoNemArroba b = true /\
     forallb naoEspacoNemArroba c = true) /\
  (10 <= trimLength (telefone data))%nat /\
  (2 <= trimLength (empresa data))%nat /\
  String.length (JS.keep JS.isDigit (cnpj data)) = 14%nat /\
  tempoExistencia data <> "" /\ faturamentoAnual data <> "" /\
  tipoConsultoria data <> "" /\
  (5 <= trimLength (mensagem data))%nat.
Proof. rewrite form_valid_aux, emailRegex_shape. reflexivity. Qed.

(** X15.  The e-mail message is among the errors exactly when the
    e-mail, as UTF-16 code units, is not of the shape [a@b.c] with [a],
    [b] and [c] non-empty and made of code units that are neither white
    space nor the at-sign. *)
Theorem form_email_rule data :
  In "Email válido é obrigatório" (errors (validateFormData data)) <->
  ~ exists a b c,
      units (email data) = (a ++ 64%N :: b ++ 46%N :: c)%list /\
      a <> [] /\ b <> [] /\ c <> [] /\
      forallb naoEspacoNemArroba a = true /\ forallb naoEspacoNemArroba b = true /\
      forallb naoEspacoNemArroba c = true.
Proof.
  mensagem_em_errors. rewrite <- emailRegex_shape.
  destruct (test emailRegex (units (email data))); simpl; split; done.
Qed.

(** X16.  The two CNPJ messages.  The first is reported exactly when
    the trimmed field has fewer than 14 characters, the second exactly
    when it has 14 or more but its digits are not 14; never both.
    Neither is reported if and only if the field has exactly 14
    digits. *)
Theorem form_cnpj_rule data :
  let es := errors (validateFormData data) in
  let digitos := String.length (JS.keep JS.isDigit (cnpj data)) in
  (In "CNPJ é obrigatório e deve ser válido" es <-> (trimLength (cnpj data) < 14)%nat) /\
  (In "CNPJ deve conter 14 dígitos" es <->
     (14 <= trimLength (cnpj data))%nat /\ digitos <> 14%nat) /\
  (digitos = 14%nat <->
     ~ In "CNPJ é obrigatório e deve ser válido" es /\ ~ In "CNPJ deve conter 14 dígitos" es).
Proof.
  intros es digitos. subst es digitos.
  pose proof (digitos_trimLength (cnpj data)) as Hd.
  assert (H1 : In "CNPJ é obrigatório e deve ser válido" (errors (validateFormData data))
               <-> (trimLength (cnpj data) < 14)%nat).
  { mensagem_em_errors. apply Nat.ltb_lt. }
  assert (H2 : In "CNPJ deve conter 14 dígitos" (errors (validateFormData data))
               <-> (14 <= trimLength (cnpj data))%nat /\
                   String.length (JS.keep JS.isDigit (cnpj data)) <> 14%nat).
  { mensagem_em_errors.
    rewrite andb_true_iff, !negb_true_iff, Nat.ltb_ge, Nat.eqb_neq. reflexivity. }
  split; [exact H1|]. split; [exact H2|]. rewrite H1, H2. lia.
Qed.

(** X17.  A form that passes validation always leads to a real lookup:
    the lookup of its CNPJ field does not fail validation, and the first
    request goes to BrasilAPI for the 14 digits of the field. *)
Theorem valid_form_is_looked_up fetch now data :
  isValid (validateFormData data) = true ->
  Consulta.source (fst (Consulta.consultarCNPJ fetch now (cnpj data))) <> Some "validacao" /\
  exists log,
    snd (Consulta.consultarCNPJ fetch now (cnpj data))
    = ("https://brasilapi.com.br/api/cnpj/v1/" ++ JS.keep JS.isDigit (cnpj data)) :: log.
Proof.
  intros (_ & _ & _ & _ & Hd & _)%form_valid_aux. split.
  - rewrite consultarCNPJ_validacao_iff. auto.
  - unfold Consulta.consultarCNPJ. rewrite Hd. simpl negb. cbv iota.
    apply percorrer_log_head.
Qed.

End FormularioFacts.

(** ** The dashboard endpoint *)

Section PainelFacts.
Import Texto Painel.

Variable fetch : string -> Consulta.Response.
Variable Date_parse : string -> option Z.
Variables now hoje fim : Z.

(** X13.  The dashboard endpoint answers 400 exactly when the parameter
    has fewer than 14 UTF-16 code units, and then without any request
    to a provider; such a parameter never has 14 digits, so nothing
    that the lookup would accept is turned away.  A parameter of 14 or
    more characters whose digits are not 14 gets a 200 that carries the
    validation failure and the unavailable score, again without any
    request.  With 14 digits the answer is a 200 and BrasilAPI was
    asked first. *)
Theorem painel_status cnpj :
  let r := rotaConsultaCNPJ fetch Date_parse now hoje fim cnpj in
  let digitos := String.length (JS.keep JS.isDigit cnpj) in
  (status (fst r) = 400 <-> (length16 cnpj < 14)%nat) /\
  (status (fst r) = 400 -> snd r = [] /\ digitos <> 14%nat) /\
  ((14 <= length16 cnpj)%nat -> digitos <> 14%nat ->
     fst r = Resultado cnpj (Consulta.falha "CNPJ deve ter 14 dígitos" (Some "validacao") None)
               Score.indisponivel fim /\
     snd r = []) /\
  (digitos = 14%nat ->
     status (fst r) = 200 /\
     exists log, snd r = ("https://brasilapi.com.br/api/cnpj/v1/" ++ JS.keep JS.isDigit cnpj) :: log).
Proof.
  intros r digitos. subst r digitos. unfold rotaConsultaCNPJ.
  pose proof (digitos_length16 cnpj) as Hd.
  destruct (Nat.ltb_spec (length16 cnpj) 14) as [Hl|Hl].
  - simpl. repeat split; try done; try lia.
  - destruct (Consulta.consultarCNPJ fetch now cnpj) as [dados log] eqn:Hc. simpl.
    split; [split; [done | lia]|]. split; [done|]. split.
    + intros _ Hn. unfold Consulta.consultarCNPJ in Hc.
      apply Nat.eqb_neq in Hn. rewrite Hn in Hc. simpl in Hc. by injection Hc as <- <-.
    + intros He. split; [done|]. unfold Consulta.consultarCNPJ in Hc.
      rewrite He in Hc. simpl negb in Hc. cbv iota in Hc.
      destruct (percorrer_log_head fetch now
                  {| Consulta.api_name := "BrasilAPI";
                     Consulta.api_url := "https://brasilapi.com.br/api/cnpj/v1/"
                                         ++ JS.keep JS.isDigit cnpj;
                     Consulta.api_official := true |}
                  (tail (Consulta.apis (JS.keep JS.isDigit cnpj)))) as [l Hlog].
      exists l. change (snd (Consulta.percorrer fetch now (Consulta.apis (JS.keep JS.isDigit cnpj)))
                        = ("https://brasilapi.com.br/api/cnpj/v1/" ++ JS.keep JS.isDigit cnpj) :: l)
        in Hlog.
      by rewrite Hc in Hlog.
Qed.

End PainelFacts.

(** ** The score: bounds, bands, monotonicity *)

Section ScoreFacts2.
Import Score.

Variable Date_parse : string -> option Z.
Variable hoje : Z.

Ltac ramos :=
  repeat match goal with
         | |- context [if ?b then _ else _] => destruct b
         | |- context [match ?o with Some _ => _ | None => _ end] => destruct o
         end.

Lemma pontos_situacao dados :
  In (situacao (c_detalhes (pontuarSituacao dados inicio))) [0; 10; 30].
Proof. unfold pontuarSituacao. ramos; simpl; auto. Qed.

Lemma pontos_tempo dados :
  In (tempo_atividade (c_detalhes (pontuarTempo Date_parse hoje dados inicio))) [0; 8; 15; 25].
Proof. unfold pontuarTempo. ramos; simpl; auto. Qed.

Lemma pontos_capital dados :
  In (capital_social (c_detalhes (pontuarCapital dados inicio))) [0; 5; 10; 15; 20].
Proof. unfold pontuarCapital. ramos; simpl; auto 6. Qed.

Lemma pontos_atividade dados :
  In (atividade_principal (c_detalhes (pontuarAtividade dados inicio))) [0; 5; 10; 15].
Proof. unfold pontuarAtividade. ramos; simpl; auto. Qed.

Lemma pontos_endereco dados :
  In (endereco (c_detalhes (pontuarEndereco dados inicio))) [0; 5; 10].
Proof. unfold pontuarEndereco. ramos; simpl; auto. Qed.

Lemma limites dadosCNPJ :
  let r := calcularScoreEstimado Date_parse hoje dadosCNPJ in
  0 <= score r <= 100 /\
  In (situacao (detalhes r)) [0; 10; 30] /\
  In (tempo_atividade (detalhes r)) [0; 8; 15; 25] /\
  In (capital_social (detalhes r)) [0; 5; 10; 15; 20] /\
  In (atividade_principal (detalhes r)) [0; 5; 10; 15] /\
  In (endereco (detalhes r)) [0; 5; 10] /\
  score r = situacao (detalhes r) + tempo_atividade (detalhes r) + capital_social (detalhes r)
            + atividade_principal (detalhes r) + endereco (detalhes r).
Proof.
  intros r.
  assert (Hz : forall x, x = indisponivel ->
            0 <= score x <= 100 /\
            In (situacao (detalhes x)) [0; 10; 30] /\
            In (tempo_atividade (detalhes x)) [0; 8; 15; 25] /\
            In (capital_social (detalhes x)) [0; 5; 10; 15; 20] /\
            In (atividade_principal (detalhes x)) [0; 5; 10; 15] /\
            In (endereco (detalhes x)) [0; 5; 10] /\
            score x = situacao (detalhes x) + tempo_atividade (detalhes x)
                      + capital_social (detalhes x)
                      + atividade_principal (detalhes x) + endereco (detalhes x)).
  { intros x ->. simpl. repeat split; auto; lia. }
  subst r. destruct dadosCNPJ as [dados|]; [|by apply Hz].
  destruct (Consulta.success dados) eqn:Hs.
  - destruct (calcular_success Date_parse hoje dados Hs) as (HD & HS & _).
    pose proof (pontos_situacao dados) as H1. pose proof (pontos_tempo dados) as H2.
    pose proof (pontos_capital dados) as H3. pose proof (pontos_atividade dados) as H4.
    pose proof (pontos_endereco dados) as H5.
    rewrite HS. unfold somaDetalhes. rewrite HD. cbn [situacao tempo_atividade capital_social
      atividade_principal endereco].
    repeat split; try done; simpl in H1, H2, H3, H4, H5; lia.
  - apply Hz. unfold calcularScoreEstimado. by rewrite Hs.
Qed.



Lemma includes_tail c s w : JS.includes s w = true -> JS.includes (String c s) w = true.
Proof. intros H. cbn [JS.includes]. rewrite H. apply orb_true_r. Qed.

Lemma includes_prefix s w : String.prefix w s = true -> JS.includes s w = true.
Proof. intros H. destruct s; cbn [JS.includes]; by rewrite H. Qed.

Lemma includes_inativa s :
  JS.includes s "inativa" = true -> JS.includes s "ativa" = true.
Proof.
  induction s as [|c s IH]; [done|].
  cbn [JS.includes]. intros [Hp | Hi]%orb_true_iff.
  - cbn [String.prefix] in Hp. destruct (ascii_dec "i" c); [|done].
    destruct s as [|c2 s]; [done|].
    cbn [String.prefix] in Hp. destruct (ascii_dec "n" c2); [|done].
    by apply includes_tail, includes_tail, includes_prefix.
  - by apply includes_tail, IH.
Qed.

Lemma fatores_mantidos dados c m :
  In m (c_fatores c) ->
  In m (c_fatores (pontuarEndereco dados
                     (pontuarAtividade dados
                        (pontuarCapital dados (pontuarTempo Date_parse hoje dados c))))).
Proof.
  intros H.
  assert (H1 : In m (c_fatores (pontuarTempo Date_parse hoje dados c))).
  { unfold pontuarTempo. ramos; simpl; rewrite ?in_app_iff; auto. }
  assert (H2 : In m (c_fatores (pontuarCapital dados (pontuarTempo Date_parse hoje dados c)))).
  { unfold pontuarCapital. ramos; simpl; rewrite ?in_app_iff; auto. }
  assert (H3 : In m (c_fatores (pontuarAtividade dados
                        (pontuarCapital dados (pontuarTempo Date_parse hoje dados c))))).
  { unfold pontuarAtividade. ramos; simpl; rewrite ?in_app_iff; auto. }
  unfold pontuarEndereco. ramos; simpl; rewrite ?in_app_iff; auto.
Qed.

(** X23.  A status text that contains the word for inactive scores as
    active: the test for ['ativa'] is a substring test, so ['inativa']
    passes it, earns the full 30 status points and is reported with the
    factor for an active status. *)
Theorem inativa_scores_as_ativa dados :
  Consulta.success dados = true ->
  JS.includes (JS.toLowerCase (Consulta.situacao dados)) "inativa" = true ->
  let r := calcularScoreEstimado Date_parse hoje (Some dados) in
  situacao (detalhes r) = 30 /\
  In "✅ Situação cadastral ativa" (fatores r) /\
  30 <= score r.
Proof.
  intros Hs Hi r.
  assert (Ht : Consulta.situacao dados <> "").
  { intros He. rewrite He in Hi. discriminate. }
  apply includes_inativa in Hi.
  destruct (limites (Some dados)) as (_ & _ & H2 & H3 & H4 & H5 & Hsum).
  fold r in H2, H3, H4, H5, Hsum.
  assert (H30 : situacao (detalhes r) = 30).
  { subst r. rewrite (situacao_table Date_parse hoje dados Hs Ht). cbv zeta. by rewrite Hi. }
  split; [exact H30|]. split.
  - subst r. unfold calcularScoreEstimado. rewrite Hs. simpl negb. cbv iota.
    destruct (classificar _) as [cl co]. cbn [fatores].
    apply fatores_mantidos. unfold pontuarSituacao.
    rewrite (truthy_true _ Ht), Hi. simpl. auto.
  - simpl in H2, H3, H4, H5. lia.
Qed.

Lemma capital_pontos texto d :
  texto <> "" ->
  capital_social (c_detalhes (pontuarCapital (comCapital texto d) inicio)) =
    let capital := parseCapital texto in
    if JS.geq capital 1000000 then 20
    else if JS.geq capital 100000 then 15
    else if JS.geq capital 10000 then 10
    else if JS.gt capital 0 then 5
    else 0.
Proof.
  intros Ht. unfold pontuarCapital. cbn [comCapital Consulta.capitalSocial].
  rewrite (truthy_true _ Ht). ramos; reflexivity.
Qed.

(** X24.  More capital never lowers the score: of two successful
    profiles that differ in the capital field only, the one whose
    field reads as the larger amount scores at least as much. *)
Theorem more_capital_never_lowers_score dados t1 t2 q1 q2 :
  Consulta.success dados = true ->
  parseCapital t1 = Some q1 -> parseCapital t2 = Some q2 -> (q1 <= q2)%Q ->
  score (calcularScoreEstimado Date_parse hoje (Some (comCapital t1 dados)))
  <= score (calcularScoreEstimado Date_parse hoje (Some (comCapital t2 dados))).
Proof.
  intros Hs H1 H2 Hq.
  assert (Hn : forall t q, parseCapital t = Some q -> t <> "").
  { intros t q Hp ->. discriminate. }
  destruct (calcular_success Date_parse hoje (comCapital t1 dados) Hs) as (D1 & S1 & _).
  destruct (calcular_success Date_parse hoje (comCapital t2 dados) Hs) as (D2 & S2 & _).
  rewrite S1, S2, D1, D2. unfold somaDetalhes.
  cbn [situacao tempo_atividade capital_social atividade_principal endereco].
  rewrite !capital_pontos by eauto. rewrite H1, H2. cbv zeta.
  change (pontuarSituacao (comCapital t1 dados)) with (pontuarSituacao dados).
  change (pontuarSituacao (comCapital t2 dados)) with (pontuarSituacao dados).
  change (pontuarTempo Date_parse hoje (comCapital t1 dados))
    with (pontuarTempo Date_parse hoje dados).
  change (pontuarTempo Date_parse hoje (comCapital t2 dados))
    with (pontuarTempo Date_parse hoje dados).
  change (pontuarAtividade (comCapital t1 dados)) with (pontuarAtividade dados).
  change (pontuarAtividade (comCapital t2 dados)) with (pontuarAtividade dados).
  change (pontuarEndereco (comCapital t1 dados)) with (pontuarEndereco dados).
  change (pontuarEndereco (comCapital t2 dados)) with (pontuarEndereco dados).
  assert (Hc : (if JS.geq (Some q1) 1000000 then 20
                else if JS.geq (Some q1) 100000 then 15
                else if JS.geq (Some q1) 10000 then 10
                else if JS.gt (Some q1) 0 then 5 else 0)
               <= (if JS.geq (Some q2) 1000000 then 20
                   else if JS.geq (Some q2) 100000 then 15
                   else if JS.geq (Some q2) 10000 then 10
                   else if JS.gt (Some q2) 0 then 5 else 0)); [|lia].
  destruct (JS.geq (Some q2) 1000000) eqn:A2; [ramos; lia|].
  apply not_true_iff_false in A2. rewrite geq_Qle in A2.
  destruct (JS.geq (Some q1) 1000000) eqn:A1; [apply geq_Qle in A1; lra|].
  destruct (JS.geq (Some q2) 100000) eqn:B2; [ramos; lia|].
  apply not_true_iff_false in B2. rewrite geq_Qle in B2.
  destruct (JS.geq (Some q1) 100000) eqn:B1; [apply geq_Qle in B1; lra|].
  destruct (JS.geq (Some q2) 10000) eqn:C2; [ramos; lia|].
  apply not_true_iff_false in C2. rewrite geq_Qle in C2.
  destruct (JS.geq (Some q1) 10000) eqn:C1; [apply geq_Qle in C1; lra|].
  destruct (JS.gt (Some q2) 0) eqn:E2; [ramos; lia|].
  apply not_true_iff_false in E2. rewrite gt_Qlt in E2.
  destruct (JS.gt (Some q1) 0) eqn:E1; [apply gt_Qlt in E1; lra|]. lia.
Qed.

End ScoreFacts2.

(** ** The life of a link *)

Section LinkFacts.
Import TempLinks.

(** X11.  A link just issued is valid exactly until its expiry, its
    budget permitting: validated at instant [t] it is returned, with
    the files it was issued for and no download counted, and the
    registry is left as it is, when [t] is not past [now] plus the
    hours asked for (48 by default) and the budget (5 by default) is
    positive; it is refused as expired when [t] is past that instant,
    and for the download limit when the budget is zero or less. *)
Theorem fresh_link_lifetime rnd now fs m h (reg : gmap string TempLink) t :
  let id := fst (generateTempLink rnd now fs m h reg) in
  let reg' := snd (generateTempLink rnd now fs m h reg) in
  let expiry := now + default 48 h * 60 * 60 * 1000 in
  match fst (validateTempLink t id reg') with
  | Valid link =>
      t <= expiry /\ 0 < default 5 m /\
      files link = default [] fs /\ downloads link = 0 /\
      snd (validateTempLink t id reg') = reg'
  | Invalid reason =>
      (expiry < t /\ reason = "Link expirado") \/
      (t <= expiry /\ default 5 m <= 0 /\ reason = "Limite de downloads atingido")
  end.
Proof.
  intros id reg' expiry. subst id reg' expiry.
  unfold generateTempLink, validateTempLink. cbn [fst snd].
  rewrite lookup_insert_eq. cbn [active negb expiresAt maxDownloads downloads files].
  destruct (Z.ltb_spec (now + default 48 h * 60 * 60 * 1000) t); [left; done|].
  destruct (Z.leb_spec (default 5 m) 0); [right; done|].
  repeat split; done.
Qed.

End LinkFacts.

(** ** The sweep *)

Section SweepFacts.
Import TempLinks Servidor.

Variable now : Z.
Variable unlinkFails : string -> bool.

Lemma removerArquivos_elem fs : forall (d : gset string) p,
  p ∈ removerArquivos unlinkFails fs d <->
  p ∈ d /\ ~ (p <> "" /\ unlinkFails p = false /\ p ∈ map path fs).
Proof.
  unfold removerArquivos, existsSync.
  induction fs as [|f fs IH]; intros d p; simpl.
  - split; [intros ?; split; [done|]; intros (_ & _ & Hin); by apply elem_of_nil in Hin | tauto].
  - etrans; [apply IH|]. clear IH.
    assert (Hc : p ∈ path f :: map path fs <-> p = path f \/ p ∈ map path fs)
      by apply elem_of_cons.
    destruct (Score.truthy (path f)) eqn:Ht; simpl.
    + assert (path f <> "") by (destruct (path f); [discriminate | congruence]).
      case_bool_decide as Hin.
      * destruct (unlinkFails (path f)) eqn:Hu.
        -- split; intros [Hd Hn]; (split; [done|]); intros (? & ? & Hp).
           ++ apply Hc in Hp as [->|?]; [congruence | apply Hn; auto].
           ++ apply Hn. repeat split; auto. apply Hc. auto.
        -- split.
           ++ intros [[Hd Hne]%elem_of_difference Hn]. split; [done|].
              intros (? & ? & Hp). apply Hc in Hp as [->|?]; [|apply Hn; auto].
              apply Hne. by apply elem_of_singleton.
           ++ intros [Hd Hn]. split.
              ** apply elem_of_difference. split; [done|]. intros ->%elem_of_singleton.
                 apply Hn. repeat split; auto. apply Hc. auto.
              ** intros (? & ? & ?). apply Hn. repeat split; auto. apply Hc. auto.
      * split; intros [Hd Hn]; (split; [done|]); intros (? & ? & Hp).
        -- apply Hc in Hp as [->|?]; [done | apply Hn; auto].
        -- apply Hn. repeat split; auto. apply Hc. auto.
    + assert (path f = "") by (destruct (path f); [done | discriminate]).
      split; intros [Hd Hn]; (split; [done|]); intros (? & ? & Hp).
      * apply Hc in Hp as [->|?]; [congruence | apply Hn; auto].
      * apply Hn. repeat split; auto. apply Hc. auto.
Qed.

Lemma cleanupFiles_removerArquivos fs : forall d : gset string,
  cleanupFiles unlinkFails fs d = removerArquivos unlinkFails fs d.
Proof.
  unfold cleanupFiles, removerArquivos, existsSync.
  induction fs as [|f fs IH]; intros d; simpl; [done|].
  rewrite IH. by destruct (Score.truthy (path f)).
Qed.

(** X29.  [cleanupFiles] removes from the disk exactly the files of its
    list that exist and whose unlinking succeeds: a path exists
    afterwards if and only if it existed before and is not a non-empty
    path of the list with a successful unlink.  Files outside the list
    are not touched, and a failing [unlinkSync] is passed over. *)
Theorem cleanupFiles_effect fs (d : gset string) p :
  p ∈ cleanupFiles unlinkFails fs d <->
  p ∈ d /\ ~ (p <> "" /\ unlinkFails p = false /\ p ∈ map path fs).
Proof. rewrite cleanupFiles_removerArquivos. apply removerArquivos_elem. Qed.

Lemma limparEntradas_lookup entries : forall s k,
  tempLinks (limparEntradas now unlinkFails entries s) !! k =
    if existsb (fun e => bool_decide (e.1 = k) && vencido now e.2) entries
    then None else tempLinks s !! k.
Proof.
  unfold limparEntradas.
  induction entries as [|[k' l'] entries IH]; intros s k; simpl; [done|].
  rewrite IH. unfold limparEntrada. simpl.
  destruct (vencido now l') eqn:Hv; simpl.
  - case_bool_decide as Hk; simpl.
    + subst. destruct (existsb _ entries); [done|]. by rewrite lookup_delete_eq.
    + destruct (existsb _ entries); [done|]. by rewrite lookup_delete_ne.
  - by rewrite andb_false_r.
Qed.

Lemma limparEntradas_disco entries : forall s p,
  p ∈ disco (limparEntradas now unlinkFails entries s) <->
  p ∈ disco s /\
  ~ (p <> "" /\ unlinkFails p = false /\
     exists e, e ∈ entries /\ vencido now e.2 = true /\ p ∈ map path (files e.2)).
Proof.
  unfold limparEntradas.
  induction entries as [|e entries IH]; intros s p; simpl.
  - split; [intros ?; split; [done|]; intros (_ & _ & ? & Hin & _); by apply elem_of_nil in Hin | tauto].
  - etrans; [apply IH|]. clear IH. unfold limparEntrada.
    assert (Hc : forall e', e' ∈ e :: entries <-> e' = e \/ e' ∈ entries)
      by (intros; apply elem_of_cons).
    destruct (vencido now e.2) eqn:Hv; simpl.
    + split.
      * intros [[Hd Hn]%removerArquivos_elem Hn']. split; [done|].
        intros (? & ? & e' & [->|Hin]%Hc & ? & ?); [apply Hn; auto | apply Hn'; eauto 10].
      * intros [Hd Hn]. split.
        -- apply removerArquivos_elem. split; [done|].
           intros (? & ? & ?). apply Hn. repeat split; auto. exists e. rewrite Hc. auto.
        -- intros (? & ? & e' & ? & ? & ?). apply Hn. repeat split; auto.
           exists e'. rewrite Hc. auto.
    + split; intros [Hd Hn]; (split; [done|]).
      * intros (? & ? & e' & [->|Hin]%Hc & ? & ?); [congruence | apply Hn; eauto 10].
      * intros (? & ? & e' & ? & ? & ?). apply Hn. repeat split; auto.
        exists e'. rewrite Hc. auto.
Qed.

Lemma entradas_existsb (reg : gmap string TempLink) entries k :
  entries ≡ₚ map_to_list reg ->
  existsb (fun e => bool_decide (e.1 = k) && vencido now e.2) entries =
    match reg !! k with Some l => vencido now l | None => false end.
Proof.
  intros Hp.
  assert (Hin : forall e, e ∈ entries <-> reg !! e.1 = Some e.2).
  { intros [k' l']. rewrite Hp. apply elem_of_map_to_list. }
  destruct (existsb _ entries) eqn:He.
  - apply existsb_exists in He as ([k' l'] & Hi%list_elem_of_In%Hin & Hb).
    simpl in *. apply andb_true_iff in Hb as [->%bool_decide_eq_true Hv].
    by rewrite Hi.
  - destruct (reg !! k) as [l|] eqn:Hl; [|done].
    destruct (vencido now l) eqn:Hv; [|done].
    assert (existsb (fun e => bool_decide (e.1 = k) && vencido now e.2) entries = true); [|congruence].
    apply existsb_exists. exists (k, l). split; [apply list_elem_of_In, Hin; done|].
    simpl. rewrite Hv. by rewrite bool_decide_eq_true_2.
Qed.

Lemma limpar_vivos entries s :
  entries ≡ₚ map_to_list (tempLinks s) ->
  forall linkId link,
    tempLinks (limparEntradas now unlinkFails entries s) !! linkId = Some link <->
    tempLinks s !! linkId = Some link /\ active link = true /\ now <= expiresAt link.
Proof.
  intros Hp linkId link. rewrite limparEntradas_lookup, (entradas_existsb _ _ _ Hp).
  destruct (tempLinks s !! linkId) as [l|] eqn:Hl.
  - unfold vencido. destruct (Z.ltb_spec (expiresAt l) now); destruct (active l) eqn:Ha; simpl;
      (split; [try discriminate; intros [= <-]; auto | intros ([= <-] & ? & ?); try done; try lia; congruence]).
  - split; [discriminate | intros [? _]; discriminate].
Qed.

Lemma entradas_elem (reg : gmap string TempLink) entries e :
  entries ≡ₚ map_to_list reg -> e ∈ entries <-> reg !! e.1 = Some e.2.
Proof. intros Hp. destruct e. rewrite Hp. apply elem_of_map_to_list. Qed.

Lemma limpar_disco entries s :
  entries ≡ₚ map_to_list (tempLinks s) ->
  forall p,
    p ∈ disco (limparEntradas now unlinkFails entries s) <->
    p ∈ disco s /\
    ~ (p <> "" /\ unlinkFails p = false /\
       exists linkId link,
         tempLinks s !! linkId = Some link /\
         (active link = false \/ now > expiresAt link) /\
         p ∈ map path (files link)).
Proof.
  intros Hp p. rewrite limparEntradas_disco.
  assert (Hv : forall l, vencido now l = true <-> active l = false \/ now > expiresAt l).
  { intros l. unfold vencido. rewrite orb_true_iff, negb_true_iff, Z.ltb_lt. split; intros [?|?]; auto; lia. }
  split; intros [Hd Hn]; (split; [done|]); intros (? & ? & Hex); apply Hn; repeat split; auto.
  - destruct Hex as (k & l & Hl & Hx & Hin). exists (k, l).
    rewrite (entradas_elem _ _ _ Hp), Hv. auto.
  - destruct Hex as ([k l] & He & Hx & Hin). exists k, l.
    rewrite (entradas_elem _ _ _ Hp) in He. rewrite Hv in Hx. auto.
Qed.

(** X1.  The sweep removes from the registry exactly the links that are
    inactive or past their expiry at the time of the sweep: a link is
    there afterwards if and only if it was there before, unchanged, is
    active and has not expired.  This holds in whatever order the
    entries of the map are walked. *)
Theorem sweep_keeps_live_links entries s :
  entries ≡ₚ map_to_list (tempLinks s) ->
  forall linkId link,
    tempLinks (limparEntradas now unlinkFails entries s) !! linkId = Some link <->
    tempLinks s !! linkId = Some link /\ active link = true /\ now <= expiresAt link.
Proof. exact (limpar_vivos entries s). Qed.

(** X2.  What the sweep does to the disk: a path exists afterwards if
    and only if it existed before and is not a non-empty path, of a
    file of some swept link (inactive or expired), whose unlinking
    succeeds.  Files of live links that share no path with a swept one
    stay, and a failing [unlinkSync] leaves the file where it is. *)
Theorem sweep_disk entries s :
  entries ≡ₚ map_to_list (tempLinks s) ->
  forall p,
    p ∈ disco (limparEntradas now unlinkFails entries s) <->
    p ∈ disco s /\
    ~ (p <> "" /\ unlinkFails p = false /\
       exists linkId link,
         tempLinks s !! linkId = Some link /\
         (active link = false \/ now > expiresAt link) /\
         p ∈ map path (files link)).
Proof. exact (limpar_disco entries s). Qed.

(** X3.  The result of the sweep does not depend on the order in which
    the entries are walked, and sweeping again at the same instant,
    over the entries that are left, changes nothing. *)
Theorem sweep_order_and_idempotence entries entries' s :
  entries ≡ₚ map_to_list (tempLinks s) ->
  (entries' ≡ₚ map_to_list (tempLinks s) ->
   limparEntradas now unlinkFails entries' s = limparEntradas now unlinkFails entries s) /\
  (entries' ≡ₚ map_to_list (tempLinks (limparEntradas now unlinkFails entries s)) ->
   limparEntradas now unlinkFails entries' (limparEntradas now unlinkFails entries s)
   = limparEntradas now unlinkFails entries s).
Proof.
  intros Hp. split; intros Hp'.
  - assert (Hl : tempLinks (limparEntradas now unlinkFails entries' s)
                 = tempLinks (limparEntradas now unlinkFails entries s)).
    { apply map_eq. intros k.
      by rewrite !limparEntradas_lookup, (entradas_existsb _ _ _ Hp), (entradas_existsb _ _ _ Hp'). }
    assert (Hd : disco (limparEntradas now unlinkFails entries' s)
                 = disco (limparEntradas now unlinkFails entries s)).
    { apply set_eq. intros p. by rewrite (limpar_disco _ _ Hp), (limpar_disco _ _ Hp'). }
    destruct (limparEntradas now unlinkFails entries' s), (limparEntradas now unlinkFails entries s).
    simpl in *. by subst.
  - set (s1 := limparEntradas now unlinkFails entries s) in *.
    assert (Hlive : Forall (fun e => vencido now e.2 = false) entries').
    { apply Forall_forall. intros [k l] He. apply (entradas_elem _ _ _ Hp') in He. simpl in *.
      apply (limpar_vivos _ _ Hp) in He as (_ & Ha & Hx).
      unfold vencido. rewrite Ha. simpl. rewrite orb_false_r. apply Z.ltb_ge. lia. }
    clear Hp'. unfold limparEntradas. induction Hlive as [|e l He _ IH]; [done|].
    simpl. unfold limparEntrada at 2. by rewrite He.
Qed.

(** X4.  The sweep changes no answer of validation that finds a link
    valid: at any instant not before the sweep, [validateTempLink]
    returns a link from the swept registry exactly when it returns it
    from the registry as it was. *)
Theorem sweep_preserves_validation entries s now' linkId link :
  entries ≡ₚ map_to_list (tempLinks s) ->
  now <= now' ->
  fst (validateTempLink now' linkId (tempLinks (limparEntradas now unlinkFails entries s)))
    = Valid link <->
  fst (validateTempLink now' linkId (tempLinks s)) = Valid link.
Proof.
  intros Hp Hle.
  unfold validateTempLink.
  destruct (tempLinks (limparEntradas now unlinkFails entries s) !! linkId) as [l1|] eqn:H1.
  - apply (limpar_vivos _ _ Hp) in H1 as (-> & Ha & Hx).
    repeat (match goal with |- context [if ?b then _ else _] => destruct b end); simpl; reflexivity.
  - destruct (tempLinks s !! linkId) as [l|] eqn:Hl; [|done].
    destruct (active l) eqn:Ha; simpl; [|done].
    destruct (Z.ltb_spec (expiresAt l) now'); [done|].
    assert (Some l = None); [|done]. rewrite <- H1. symmetry.
    apply (limpar_vivos _ _ Hp). repeat split; auto. lia.
Qed.

End SweepFacts.

(** ** The server as a transition system *)

Section ServidorFacts.
Import TempLinks Servidor.

Lemma validate_snd_lookup now k (reg : gmap string TempLink) id :
  snd (validateTempLink now k reg) !! id = reg !! id \/
  (id = k /\ exists l, reg !! id = Some l /\ active l = true /\
     snd (validateTempLink now k reg) !! id = Some (setActive false l) /\
     exists reason, fst (validateTempLink now k reg) = Invalid reason).
Proof.
  pose proof (validateTempLink_validates now k reg) as Hv.
  destruct (validateTempLink now k reg) as [v reg']. simpl.
  inversion Hv; subst; auto.
  - destruct (decide (id = k)) as [->|Hne]; [|left; by apply lookup_insert_ne].
    right. split; [done|]. exists link. rewrite lookup_insert_eq. eauto 10.
  - destruct (decide (id = k)) as [->|Hne]; [|left; by apply lookup_insert_ne].
    right. split; [done|]. exists link. rewrite lookup_insert_eq. eauto 10.
Qed.

Lemma increment_lookup k (reg : gmap string TempLink) id :
  incrementDownload k reg !! id =
    if decide (k = id) then (fun l => setDownloads (downloads l + 1) l) <$> reg !! id
    else reg !! id.
Proof.
  unfold incrementDownload. case_decide as Hk.
  - subst. destruct (reg !! id) as [l|] eqn:Hl; simpl; [by rewrite lookup_insert_eq | done].
  - destruct (reg !! k); [by rewrite lookup_insert_ne | done].
Qed.

Lemma rota_efeito id now k (s : Estado)
    (cont : TempLink -> gmap string TempLink -> Resposta * Estado)
    (inval : string -> Resposta) :
  (forall link, tempLinks s !! k = Some link ->
     (tempLinks (snd (cont link (tempLinks s))) = tempLinks s /\
      servido (Some (fst (cont link (tempLinks s)))) = false) \/
     (tempLinks (snd (cont link (tempLinks s))) = incrementDownload k (tempLinks s) /\
      servido (Some (fst (cont link (tempLinks s)))) = true)) ->
  (forall r, servido (Some (inval r)) = false) ->
  let res := let '(validation, reg) := validateTempLink now k (tempLinks s) in
             match validation with
             | Invalid reason => (inval reason, comLinks reg s)
             | Valid link => cont link reg
             end in
  efeitoDe id (Some k) s (Some (fst res), snd res).
Proof.
  intros Hcont Hinval. unfold efeitoDe.
  pose proof (validateTempLink_validates now k (tempLinks s)) as Hv.
  pose proof (validate_snd_lookup now k (tempLinks s) id) as Hs.
  destruct (validateTempLink now k (tempLinks s)) as [[reason|link] reg] eqn:Hval; simpl in *.
  - rewrite Hinval. simpl.
    destruct Hs as [Hs | (-> & l & Hl & Ha & Hs & _)].
    + rewrite Hs. destruct (tempLinks s !! id) as [l|]; [|done]. right. exists l. auto.
    + rewrite Hl, Hs. right. eexists. split; [done|]. simpl. auto.
  - apply validates_valid_inv in Hv as (-> & Hl & Ha & He & Hd).
    destruct (Hcont link Hl) as [[-> ->] | [-> ->]]; simpl.
    + destruct (tempLinks s !! id) as [l|]; [|done]. right. exists l. auto.
    + rewrite increment_lookup. case_decide as Hk.
      * subst. rewrite Hl. simpl. rewrite bool_decide_eq_true_2 by done.
        right. eexists. split; [done|]. simpl. auto.
      * rewrite bool_decide_eq_false_2 by congruence.
        destruct (tempLinks s !! id) as [l|]; [|done]. right. exists l. auto.
Qed.

Lemma passo_efeito id e s :
  naoEmite id e -> efeitoDe id (pedido e) s (passo e s).
Proof.
  intros Hup.
  destruct e as [rnd now fs cl lp uf | now k | now k fname | now k | now uf]; simpl.
  - unfold efeitoDe. destruct fs as [|f fs], cl; simpl in *;
      rewrite ?lookup_insert_ne by done;
      (destruct (tempLinks s !! id) as [l|]; [|done]); right; exists l; auto.
  - apply (rota_efeito id now k s
      (fun link reg => (PaginaDownload link, comLinks reg s)) (fun _ => PaginaInvalida));
      [intros; left; done | done].
  - apply (rota_efeito id now k s
      (fun link reg =>
         match files link with
         | [] => (Erro404 "Arquivo não encontrado", comLinks reg s)
         | _ :: _ =>
             match Texto.decodeURIComponent fname with
             | None => (Erro500, comLinks reg s)
             | Some nome =>
                 match List.find (fun f => String.eqb (originalname f) nome) (files link) with
                 | None => (Erro404 "Arquivo não encontrado", comLinks reg s)
                 | Some file =>
                     if existsSync (path file) (disco s) then
                       (Download file, comLinks (incrementDownload k reg) s)
                     else (Erro404 "Arquivo não existe no servidor", comLinks reg s)
                 end
             end
         end) Erro404); [|done].
    intros; repeat case_match; simpl; auto.
  - apply (rota_efeito id now k s
      (fun link reg => (Lote (map originalname (files link)),
                        comLinks (incrementDownload k reg) s)) Erro404);
      [intros; right; done | done].
  - unfold efeitoDe, cleanupExpiredLinks. simpl. rewrite limparEntradas_lookup.
    destruct (tempLinks s !! id) as [l|] eqn:Hl.
    + destruct (existsb _ _); [left; done|]. right. exists l. auto.
    + by destruct (existsb _ _).
Qed.

Lemma servidos_cap id eventos : forall s,
  semReemissao id eventos ->
  match tempLinks s !! id with
  | Some l => Z.of_nat (servidos id eventos s) <= Z.max 0 (maxDownloads l - downloads l) /\
              (active l = false -> servidos id eventos s = 0%nat)
  | None => servidos id eventos s = 0%nat
  end.
Proof.
  induction eventos as [|e eventos IH]; intros s Hsem.
  - simpl. destruct (tempLinks s !! id); [split; [lia | done] | done].
  - apply Forall_cons in Hsem as [He Hsem]. simpl.
    pose proof (passo_efeito id e s He) as Hef. unfold efeitoDe in Hef.
    specialize (IH (snd (passo e s)) Hsem).
    destruct (tempLinks s !! id) as [l|].
    + destruct Hef as [[Hn Hs] | (l' & Hl' & Hm & Ha & Hs)].
      * rewrite Hn in IH. rewrite Hs, IH. simpl. split; [lia | done].
      * rewrite Hl' in IH. destruct IH as [IH IHa].
        destruct (servido (passo e s).1 && bool_decide (pedido e = Some id)).
        -- destruct Hs as (Hact & Hd & Hd'). split; [lia | congruence].
        -- split; [lia | intros Hf; rewrite IHa by auto; done].
    + destruct Hef as [Hn Hs]. rewrite Hn in IH. rewrite Hs, IH. done.
Qed.

Lemma efeito_budget id k s res l' :
  efeitoDe id k s res -> within_budget (tempLinks s) ->
  tempLinks (snd res) !! id = Some l' -> downloads l' <= maxDownloads l'.
Proof.
  unfold efeitoDe. intros Hef Hb Hl'.
  destruct (tempLinks s !! id) as [l|] eqn:Hl.
  - destruct Hef as [[Hn _] | (l'' & Hl'' & Hm & _ & Hs)]; [congruence|].
    rewrite Hl' in Hl''. injection Hl'' as <-.
    pose proof (Hb _ _ Hl). destruct (_ && _); lia.
  - destruct Hef as [Hn _]. congruence.
Qed.

Lemma passo_budget e s :
  within_budget (tempLinks s) -> within_budget (tempLinks (snd (passo e s))).
Proof.
  intros Hb id l' Hl'.
  assert (Hgo : naoEmite id e -> downloads l' <= maxDownloads l').
  { intros Hup. exact (efeito_budget _ _ _ _ _ (passo_efeito id e s Hup) Hb Hl'). }
  destruct e as [rnd now [|f fs] [|] lp uf | | | |]; try (by apply Hgo).
  destruct (decide (JS.toHexUpper rnd = id)) as [<-|Hne]; [|by apply Hgo].
  simpl in Hl'. rewrite lookup_insert_eq in Hl'. injection Hl' as <-. simpl. lia.
Qed.

(** X5.  Whatever sequence of uploads, page views, file downloads, zip
    requests and sweeps the server goes through from its start, every
    link in the registry has [downloads <= maxDownloads]: the routes
    call [incrementDownload] only behind a validation that found
    downloads left. *)
Theorem server_within_budget eventos :
  within_budget (tempLinks (executar eventos inicial)).
Proof.
  unfold executar.
  assert (H : forall s, within_budget (tempLinks s) ->
                        within_budget (tempLinks (foldl (fun s e => snd (passo e s)) s eventos))).
  { induction eventos as [|e eventos IH]; intros s Hs; [done|]. simpl. by apply IH, passo_budget. }
  apply H. intros k l. simpl. by rewrite lookup_empty.
Qed.

(** X6.  The download limit holds over the life of a link: from any
    state in which the link is registered, and as long as no upload
    draws its identifier again, the number of requests answered with a
    download of that link (a file or the zip listing) is at most what
    its budget had left, [maxDownloads - downloads]. *)
Theorem download_cap id eventos s link :
  tempLinks s !! id = Some link ->
  semReemissao id eventos ->
  Z.of_nat (servidos id eventos s) <= Z.max 0 (maxDownloads link - downloads link).
Proof.
  intros Hl Hsem. pose proof (servidos_cap id eventos s Hsem) as H. rewrite Hl in H. apply H.
Qed.

(** X7.  A link made by the consultancy route is served at most five
    times: after an upload with at least one file that registers a
    link, no sequence of events that does not draw the same identifier
    again answers more than five requests with a download of it. *)
Theorem upload_served_at_most_five rnd now f fs limpa unlinkFails eventos s :
  semReemissao (JS.toHexUpper rnd) eventos ->
  (servidos (JS.toHexUpper rnd) eventos
     (snd (passo (Upload rnd now (f :: fs) true limpa unlinkFails) s)) <= 5)%nat.
Proof.
  intros Hsem.
  pose proof (servidos_cap (JS.toHexUpper rnd) eventos
                (snd (passo (Upload rnd now (f :: fs) true limpa unlinkFails) s)) Hsem) as H.
  set (s1 := snd (passo (Upload rnd now (f :: fs) true limpa unlinkFails) s)) in *.
  assert (Hl : tempLinks s1 !! JS.toHexUpper rnd
               = Some {| files := f :: fs; createdAt := now; downloads := 0;
                         maxDownloads := 5; expiresAt := now + 48 * 60 * 60 * 1000;
                         active := true |})
    by apply lookup_insert_eq.
  rewrite Hl in H. destruct H as [H _]. simpl in H. lia.
Qed.

Lemma validate_invalid_dead now id (reg : gmap string TempLink) reason :
  fst (validateTempLink now id reg) = Invalid reason ->
  match snd (validateTempLink now id reg) !! id with
  | Some l => active l = false
  | None => True
  end.
Proof.
  pose proof (validateTempLink_validates now id reg) as Hv.
  destruct (validateTempLink now id reg) as [v reg']. simpl. intros ->.
  inversion Hv; subst; simplify_map_eq; done.
Qed.

(** X8.  A refusal is final.  When validation refuses a link (unknown,
    deactivated, expired or out of downloads), the request that asked
    for it is not served, and no later request for the same identifier
    is ever served, unless an upload registers that identifier anew. *)
Theorem refused_never_served now id fname s e eventos reason :
  e = GetPagina now id \/ e = GetArquivo now id fname \/ e = GetZip now id ->
  fst (validateTempLink now id (tempLinks s)) = Invalid reason ->
  semReemissao id eventos ->
  servido (fst (passo e s)) = false /\
  servidos id eventos (snd (passo e s)) = 0%nat.
Proof.
  intros He Hinv Hsem.
  pose proof (validate_invalid_dead _ _ _ _ Hinv) as Hdead.
  pose proof (servidos_cap id eventos (snd (passo e s)) Hsem) as Hcap.
  assert (Hs : tempLinks (snd (passo e s)) = snd (validateTempLink now id (tempLinks s))
               /\ servido (fst (passo e s)) = false).
  { destruct He as [-> | [-> | ->]]; simpl;
      unfold rotaPagina, rotaArquivo, rotaZip;
      destruct (validateTempLink now id (tempLinks s)) as [v reg];
      simpl in Hinv; subst v; done. }
  destruct Hs as [Hs ->]. split; [done|]. rewrite Hs in Hcap.
  destruct (snd (validateTempLink now id (tempLinks s)) !! id); [by apply Hcap | done].
Qed.








End ServidorFacts.


(** ** The properties above at concrete inputs *)

Section ExemplosServidor.
Import TempLinks Servidor.

Lemma sweep_keeps_live_links_witness :
  map_to_list (tempLinks estadoExemplo) ≡ₚ map_to_list (tempLinks estadoExemplo) /\
  tempLinks (cleanupExpiredLinks 500 (fun _ => false) estadoExemplo) !! "AA" = Some vivo.
Proof.
  split; [reflexivity|].
  apply (sweep_keeps_live_links 500 (fun _ => false)
           (map_to_list (tempLinks estadoExemplo)) estadoExemplo); [reflexivity|].
  split; [vm_compute; reflexivity|]. split; [reflexivity | simpl; lia].
Defined.

Lemma sweep_disk_witness :
  map_to_list (tempLinks estadoExemplo) ≡ₚ map_to_list (tempLinks estadoExemplo) /\
  (path balanco ∈ disco (cleanupExpiredLinks 500 (fun _ => false) estadoExemplo) <->
   path balanco ∈ disco estadoExemplo /\
   ~ (path balanco <> "" /\ false = false /\
      exists linkId link,
        tempLinks estadoExemplo !! linkId = Some link /\
        (active link = false \/ 500 > expiresAt link) /\
        path balanco ∈ map path (files link))).
Proof.
  split; [reflexivity|].
  apply (sweep_disk 500 (fun _ => false)
           (map_to_list (tempLinks estadoExemplo)) estadoExemplo). reflexivity.
Defined.

Lemma sweep_order_and_idempotence_witness :
  let entradas := map_to_list (tempLinks estadoExemplo) in
  let limpo := limparEntradas 500 (fun _ => false) entradas estadoExemplo in
  entradas ≡ₚ map_to_list (tempLinks estadoExemplo) /\
  map_to_list (tempLinks limpo) ≡ₚ map_to_list (tempLinks limpo) /\
  limparEntradas 500 (fun _ => false) (map_to_list (tempLinks limpo)) limpo = limpo.
Proof.
  intros entradas limpo. split; [reflexivity|]. split; [reflexivity|].
  destruct (sweep_order_and_idempotence 500 (fun _ => false) entradas
              (map_to_list (tempLinks limpo)) estadoExemplo) as [_ H]; [reflexivity|].
  apply H. reflexivity.
Defined.

Lemma sweep_preserves_validation_witness :
  map_to_list (tempLinks estadoExemplo) ≡ₚ map_to_list (tempLinks estadoExemplo) /\
  500 <= 600 /\
  (fst (validateTempLink 600 "AA"
          (tempLinks (cleanupExpiredLinks 500 (fun _ => false) estadoExemplo))) = Valid vivo <->
   fst (validateTempLink 600 "AA" (tempLinks estadoExemplo)) = Valid vivo).
Proof.
  split; [reflexivity|]. split; [lia|].
  apply (sweep_preserves_validation 500 (fun _ => false)
           (map_to_list (tempLinks estadoExemplo)) estadoExemplo 600 "AA" vivo);
    [reflexivity | lia].
Defined.

Lemma download_cap_witness :
  tempLinks estadoExemplo !! "AA" = Some vivo /\
  Z.of_nat (servidos "AA" [GetZip 200 "AA"; GetArquivo 300 "AA" "contrato.pdf";
                           Limpeza 400 (fun _ => false); GetZip 500 "AA"]
              estadoExemplo) <= Z.max 0 (5 - 0).
Proof.
  split; [vm_compute; reflexivity|].
  apply (download_cap "AA" [GetZip 200 "AA"; GetArquivo 300 "AA" "contrato.pdf";
                            Limpeza 400 (fun _ => false); GetZip 500 "AA"]
           estadoExemplo vivo);
    [vm_compute; reflexivity | repeat constructor].
Defined.

Lemma upload_served_at_most_five_witness :
  (servidos "0123456789ABCDEF" (repeat (GetZip 200 "0123456789ABCDEF") 7)
     (snd (passo (Upload ["001"; "035"; "069"; "103"; "137"; "171"; "205"; "239"]%char
                         100 [contrato] true false (fun _ => false)) inicial)) <= 5)%nat.
Proof.
  apply (upload_served_at_most_five
           ["001"; "035"; "069"; "103"; "137"; "171"; "205"; "239"]%char
           100 contrato [] false (fun _ => false)
           (repeat (GetZip 200 "0123456789ABCDEF") 7) inicial).
  repeat constructor.
Defined.

Lemma refused_never_served_witness :
  fst (validateTempLink 500 "BB" (tempLinks estadoExemplo)) = Invalid "Link expirado" /\
  servido (fst (passo (GetZip 500 "BB") estadoExemplo)) = false /\
  servidos "BB" [GetZip 5 "BB"; GetArquivo 6 "BB" "balanco.pdf"]
    (snd (passo (GetZip 500 "BB") estadoExemplo)) = 0%nat.
Proof.
  split; [vm_compute; reflexivity|].
  apply (refused_never_served 500 "BB" "" estadoExemplo (GetZip 500 "BB")
           [GetZip 5 "BB"; GetArquivo 6 "BB" "balanco.pdf"] "Link expirado");
    [right; right; reflexivity | vm_compute; reflexivity | repeat constructor].
Defined.



End ExemplosServidor.

Section ExemplosConsulta.
Import Consulta Score.

Lemma lookup_result_invariant_witness :
  success (fst (consultarCNPJ redeExemplo 7 "11.222.333/0001-81")) = true /\
  razaoSocial (fst (consultarCNPJ redeExemplo 7 "11.222.333/0001-81")) <> "" /\
  error (fst (consultarCNPJ redeExemplo 7 "11.222.333/0001-81")) = None.
Proof.
  split; [reflexivity|].
  destruct (lookup_result_invariant redeExemplo 7 "11.222.333/0001-81") as [H _].
  destruct (H eq_refl) as (Hr & He & _). split; [exact Hr | exact He].
Defined.

Lemma painel_status_witness :
  String.length (JS.keep JS.isDigit "11.222.333/0001-81") = 14%nat /\
  Painel.status (fst (Painel.rotaConsultaCNPJ redeExemplo isoDate 7 8 9 "11.222.333/0001-81"))
  = 200.
Proof.
  split; [reflexivity|].
  destruct (painel_status redeExemplo isoDate 7 8 9 "11.222.333/0001-81") as (_ & _ & _ & H).
  destruct (H eq_refl) as [Hs _]. exact Hs.
Defined.


Lemma inativa_scores_as_ativa_witness :
  JS.includes (JS.toLowerCase "INATIVA") "inativa" = true /\
  Score.situacao (detalhes (calcularScoreEstimado isoDate 1735689600000
                              (Some (perfil "INATIVA" "2018-01-01" "R$ 150.000,00")))) = 30.
Proof.
  split; [reflexivity|].
  destruct (inativa_scores_as_ativa isoDate 1735689600000
              (perfil "INATIVA" "2018-01-01" "R$ 150.000,00") eq_refl eq_refl) as [H _].
  exact H.
Defined.

Lemma more_capital_never_lowers_score_witness :
  parseCapital "R$ 5.000,00" = Some (JS.toDouble 5000) /\
  parseCapital "R$ 150.000,00" = Some (JS.toDouble 150000) /\
  (JS.toDouble 5000 <= JS.toDouble 150000)%Q /\
  score (calcularScoreEstimado isoDate 1735689600000
           (Some (comCapital "R$ 5.000,00" (perfil "ATIVA" "2018-01-01" ""))))
  <= score (calcularScoreEstimado isoDate 1735689600000
              (Some (comCapital "R$ 150.000,00" (perfil "ATIVA" "2018-01-01" "")))).
Proof.
  split; [vm_compute; reflexivity|]. split; [vm_compute; reflexivity|].
  split; [vm_compute; discriminate|].
  apply (more_capital_never_lowers_score isoDate 1735689600000
           (perfil "ATIVA" "2018-01-01" "") "R$ 5.000,00" "R$ 150.000,00"
           (JS.toDouble 5000) (JS.toDouble 150000));
    [reflexivity | vm_compute; reflexivity | vm_compute; reflexivity
    | vm_compute; discriminate].
Defined.

End ExemplosConsulta.

Section ExemplosFormulario.
Import Texto Formulario.

Lemma form_valid_iff_witness :
  isValid (validateFormData formularioExemplo) = true /\
  String.length (JS.keep JS.isDigit (cnpj formularioExemplo)) = 14%nat.
Proof.
  split; [vm_compute; reflexivity|].
  destruct (form_valid_iff formularioExemplo) as [H _].
  destruct (H ltac:(vm_compute; reflexivity)) as (_ & _ & _ & _ & Hd & _). exact Hd.
Defined.

Lemma form_email_rule_witness :
  units "maria@acme.com.br"
  = ([109; 97; 114; 105; 97] ++ 64 :: [97; 99; 109; 101; 46; 99; 111; 109] ++ 46 :: [98; 114])%list%N /\
  ~ In "Email válido é obrigatório" (errors (validateFormData formularioExemplo)).
Proof.
  split; [vm_compute; reflexivity|].
  intros H. apply (form_email_rule formularioExemplo) in H. apply H.
  exists [109; 97; 114; 105; 97]%N, [97; 99; 109; 101; 46; 99; 111; 109]%N, [98; 114]%N.
  repeat split; try discriminate; vm_compute; reflexivity.
Defined.

Lemma form_cnpj_rule_witness :
  String.length (JS.keep JS.isDigit (cnpj formularioExemplo)) = 14%nat /\
  ~ In "CNPJ deve conter 14 dígitos" (errors (validateFormData formularioExemplo)).
Proof.
  split; [reflexivity|].
  destruct (form_cnpj_rule formularioExemplo) as (_ & _ & [H _]).
  destruct (H eq_refl) as [_ H2]. exact H2.
Defined.

Lemma valid_form_is_looked_up_witness :
  isValid (validateFormData formularioExemplo) = true /\
  Consulta.source (fst (Consulta.consultarCNPJ Consulta.redeExemplo 7 (cnpj formularioExemplo)))
  <> Some "validacao".
Proof.
  split; [vm_compute; reflexivity|].
  destruct (valid_form_is_looked_up Consulta.redeExemplo 7 formularioExemplo) as [H _];
    [vm_compute; reflexivity | exact H].
Defined.

Lemma stored_name_safe_witness :
  todos (fun c => Upload.permitido (N_of_ascii c)) "contrato.pdf" = true /\
  Upload.sanitizar "contrato.pdf" = "contrato.pdf".
Proof.
  split; [reflexivity|].
  destruct (stored_name_safe 0 "contrato.pdf") as (_ & _ & H). apply H. reflexivity.
Defined.

Lemma rejected_type_gets_500_witness :
  Upload.fileFilter "image/png"
  = Some (Upload.OutroErro "Apenas arquivos PDF, DOC e DOCX são permitidos") /\
  Upload.tratarErro (Upload.OutroErro "Apenas arquivos PDF, DOC e DOCX são permitidos")
  = (500, "Erro interno do servidor").
Proof.
  split; [reflexivity|].
  destruct (rejected_type_gets_500 "image/png") as [_ H]. apply H. reflexivity.
Defined.

Lemma masked_cnpj_accepted_witness :
  (14 <= String.length (MaskUtils.removeMask "11222333000181"))%nat /\
  String.length (MaskUtils.cnpjMask "11222333000181") = 18%nat /\
  MaskUtils.validateCNPJ (MaskUtils.cnpjMask "11222333000181") = true.
Proof.
  split; [simpl; lia|].
  destruct (masked_cnpj_accepted "11222333000181") as (H1 & H2 & _); [simpl; lia|].
  split; [exact H1 | exact H2].
Defined.

End ExemplosFormulario.
